(** * AI News Tracker: the article ingestion pipeline

    A shallow embedding of the ingestion pipeline of the news tracker
    ([news-tracker/rss-proxy.js], the categorisation module and the
    localStorage module) together with the properties its specification
    states about it.

    JavaScript strings are sequences of UTF-16 code units; a code unit is a
    natural number ([N]).  Functions of the browser platform whose behaviour
    is a table of the platform (Unicode case mapping, date parsing, URL
    parsing, HTML entity decoding) are the fields of the class [Platform];
    the code of the repository is written against that interface. *)

From Stdlib Require Import ZArith NArith List Bool Lia String Ascii.
From Stdlib Require Import Permutation Sorted.
Import ListNotations.

Set Implicit Arguments.
Open Scope Z_scope.

(* ================================================================= *)
(** ** JavaScript strings *)

Module JS.

Definition codeunit := N.
Definition jsstring := list codeunit.

(** A string literal of the source (all literals used are ASCII). *)
Definition lit (s : string) : jsstring :=
  List.map N_of_ascii (list_ascii_of_string s).

Definition cu_eqb (a b : codeunit) : bool := N.eqb a b.

Fixpoint str_eqb (s t : jsstring) : bool :=
  match s, t with
  | [], [] => true
  | a :: s', b :: t' => cu_eqb a b && str_eqb s' t'
  | _, _ => false
  end.

(** [s.startsWith(p)] *)
Fixpoint startsWith (p s : jsstring) : bool :=
  match p, s with
  | [], _ => true
  | a :: p', b :: s' => cu_eqb a b && startsWith p' s'
  | _ :: _, [] => false
  end.

(** [s.includes(p)]: [p] occurs in [s] as a contiguous substring. *)
Fixpoint includes (s p : jsstring) : bool :=
  startsWith p s ||
  match s with
  | [] => false
  | _ :: s' => includes s' p
  end.

(** [s.substring(0, n)] *)
Definition substring0 (n : nat) (s : jsstring) : jsstring := firstn n s.

(** [s.replace(p, '')] with a string pattern: removes the first occurrence
    of [p] only. *)
Fixpoint remove_first (p s : jsstring) : jsstring :=
  if startsWith p s then skipn (List.length p) s
  else match s with
       | [] => []
       | c :: s' => c :: remove_first p s'
       end.

(** [s.split(sep)] for a one-unit separator: never empty, the pieces are
    the maximal runs without [sep]. *)
Fixpoint split (sep : codeunit) (s : jsstring) : list jsstring :=
  match s with
  | [] => [[]]
  | c :: s' =>
      if cu_eqb c sep then [] :: split sep s'
      else match split sep s' with
           | [] => [[c]]
           | w :: ws => (c :: w) :: ws
           end
  end.

(** [parts.join(sep)] *)
Fixpoint join (sep : jsstring) (parts : list jsstring) : jsstring :=
  match parts with
  | [] => []
  | [w] => w
  | w :: ws => w ++ sep ++ join sep ws
  end.

(** The operand of [||] is falsy when it is [undefined]/[null] ([None]) or
    the empty string. *)
Definition truthy (a : option jsstring) : bool :=
  match a with
  | Some (_ :: _) => true
  | _ => false
  end.

(** [a || b] where [b] is a string. *)
Definition or_else (a : option jsstring) (b : jsstring) : jsstring :=
  match a with
  | Some (c :: s) => c :: s
  | _ => b
  end.

(** [ToInt32]: the value modulo 2^32, read as a signed 32-bit integer. *)
Definition to_int32 (z : Z) : Z :=
  (z + 2147483648) mod 4294967296 - 2147483648.

(** [a << k] on numbers: the left operand is converted with [ToInt32], the
    result is again a signed 32-bit integer. *)
Definition shl32 (a : Z) (k : Z) : Z := to_int32 (Z.shiftl (to_int32 a) k).

(** [a & b] on numbers. *)
Definition and32 (a b : Z) : Z := to_int32 (Z.land (to_int32 a) (to_int32 b)).

(** [n.toString(36)] for a non-negative integer [n]. *)
Definition digit36 (d : N) : codeunit :=
  if (d <? 10)%N then (48 + d)%N else (87 + d)%N.

Fixpoint toString36_aux (fuel : nat) (n : N) (acc : jsstring) : jsstring :=
  match fuel with
  | O => acc
  | S fuel' =>
      let acc' := digit36 (n mod 36)%N :: acc in
      if (n / 36 =? 0)%N then acc' else toString36_aux fuel' (n / 36)%N acc'
  end.

Definition toString36 (n : N) : jsstring :=
  toString36_aux (S (N.to_nat (N.log2 n))) n [].

(** The interface of the browser platform the repository code calls. *)
Class Platform := {
  (** [s.toLowerCase()] *)
  toLowerCase : jsstring -> jsstring;
  (** [s.toUpperCase()] *)
  toUpperCase : jsstring -> jsstring;
  (** the time value of [new Date(s)]; [None] is NaN (an invalid date) *)
  Date_parse : jsstring -> option Z;
  (** [new Date(t).toISOString()] *)
  toISOString : Z -> jsstring;
  (** [new URL(s).hostname]; [None] when the constructor throws *)
  URL_hostname : jsstring -> option jsstring;
  (** [textarea.innerHTML = s; textarea.value] *)
  decodeEntities : jsstring -> jsstring
}.

End JS.
Import JS.

(* ================================================================= *)
(** ** Data model *)

(** A raw feed item as the proxies deliver it; an absent field is [None]. *)
Record RawArticle := mkRaw {
  raw_title : option jsstring;
  raw_description : option jsstring;
  raw_content : option jsstring;
  raw_link : option jsstring;
  raw_pubDate : option jsstring;
  raw_guid : option jsstring
}.

Record Article := mkArticle {
  id : jsstring;
  title : jsstring;
  description : jsstring;
  link : jsstring;
  pubDate : jsstring;
  source : jsstring;
  category : jsstring;
  isFavorite : bool
}.

(** [{...article, category: c}] *)
Definition with_category (a : Article) (c : jsstring) : Article :=
  mkArticle (id a) (title a) (description a) (link a) (pubDate a)
            (source a) c (isFavorite a).

(* ================================================================= *)
(** ** Normalizer ([rss-proxy.js]) *)

Section Normalizer.
Context {P : Platform}.

(** One round of the loop of [generateArticleId]:
    [hash = ((hash << 5) - hash) + char; hash = hash & hash]. *)
Definition hash_step (hash : Z) (char : codeunit) : Z :=
  let hash1 := (shl32 hash 5 - hash) + Z.of_N char in
  and32 hash1 hash1.

Definition hash_loop (url : jsstring) (hash : Z) : Z :=
  fold_left hash_step url hash.

Definition generateArticleId (url : jsstring) : jsstring :=
  let hash := hash_loop url 0 in
  lit "article-" ++ toString36 (Z.to_N (Z.abs hash)).

(** [html.replace(/<[^>]*>/g, '')].  [in_tag = true] while the scan is
    inside a match of the pattern; a ['<'] opens a match only when a ['>']
    follows somewhere, because the pattern needs its closing ['>']. *)
Definition LT : codeunit := 60%N.
Definition GT : codeunit := 62%N.

Definition has_gt (s : jsstring) : bool := existsb (cu_eqb GT) s.

Fixpoint stripTags_from (in_tag : bool) (s : jsstring) : jsstring :=
  match s with
  | [] => []
  | c :: s' =>
      if in_tag then
        if cu_eqb c GT then stripTags_from false s'
        else stripTags_from true s'
      else if cu_eqb c LT && has_gt s' then stripTags_from true s'
      else c :: stripTags_from false s'
  end.

Definition stripTags (html : jsstring) : jsstring := stripTags_from false html.

Definition maxLength : nat := 200.

Definition cleanDescription (html : jsstring) : jsstring :=
  let text := stripTags html in
  let decoded := decodeEntities text in
  if Nat.ltb maxLength (List.length decoded) then
    substring0 maxLength decoded ++ lit "..."
  else or_else (Some decoded) (lit "No description available.").

(** [word.charAt(0).toUpperCase() + word.slice(1)] *)
Definition capitalize (word : jsstring) : jsstring :=
  toUpperCase (firstn 1 word) ++ skipn 1 word.

Definition extractSource (url : jsstring) : jsstring :=
  match URL_hostname url with
  | Some h =>
      let hostname := remove_first (lit "www.") h in
      join (lit " ")
           (List.map capitalize (split 45%N (hd [] (split 46%N hostname))))
  | None => lit "Unknown Source"
  end.

(** [now] is the clock value [new Date()] reads, used only when the raw
    item has no [pubDate]. *)
Definition normalizeArticle (now : Z) (rawArticle : RawArticle) : Article :=
  let id := generateArticleId
              (or_else (raw_link rawArticle) (or_else (raw_guid rawArticle) [])) in
  {| id := id;
     title := or_else (raw_title rawArticle) (lit "Untitled");
     description :=
       cleanDescription
         (or_else (raw_description rawArticle)
                  (or_else (raw_content rawArticle) []));
     link := or_else (raw_link rawArticle)
                     (or_else (raw_guid rawArticle) (lit "#"));
     pubDate := or_else (raw_pubDate rawArticle) (toISOString now);
     source := extractSource (or_else (raw_link rawArticle) []);
     category := lit "industry-news";
     isFavorite := false |}.

End Normalizer.

(* ================================================================= *)
(** ** Classifier (categorisation module) *)

Record CategoryData := mkCategory {
  name : jsstring;
  keywords : list jsstring
}.

(** [CATEGORIES]: an object literal; [Object.entries] enumerates its keys in
    the order of the literal, which is the order of this list. *)
Definition CATEGORIES : list (jsstring * CategoryData) :=
  [ (lit "all", mkCategory (lit "All News") []);
    (lit "ai-design-tools",
     mkCategory (lit "AI Design Tools")
       (List.map lit
          ["midjourney"; "dall-e"; "dall e"; "dalle"; "stable diffusion";
           "generative ai"; "ai tool"; "text to image"; "image generation";
           "ai software"; "design tool"; "firefly"; "leonardo ai"]%string));
    (lit "visualization",
     mkCategory (lit "Visualization")
       (List.map lit
          ["rendering"; "visualization"; "visualisation"; "vray"; "v-ray";
           "3d render"; "cgi"; "3d visualization"; "lumion"; "enscape";
           "twinmotion"; "unreal engine"; "photorealistic"; "3d model"]%string));
    (lit "automation",
     mkCategory (lit "Automation")
       (List.map lit
          ["automation"; "workflow"; "productivity"; "ai agent"; "automate";
           "efficiency"; "process automation"; "task automation";
           "machine learning"; "artificial intelligence workflow"]%string));
    (lit "architecture-ai",
     mkCategory (lit "Architecture AI")
       (List.map lit
          ["architecture"; "architectural design"; "building design"; "bim";
           "parametric design"; "generative design"; "computational design";
           "architect"; "building"; "construction"; "revit ai";
           "grasshopper"]%string));
    (lit "interior-design-ai",
     mkCategory (lit "Interior Design AI")
       (List.map lit
          ["interior design"; "interior"; "furniture"; "space planning";
           "room design"; "interior ai"; "home design"; "decor";
           "interior visualization"]%string));
    (lit "industry-news",
     mkCategory (lit "Industry News")
       (List.map lit
          ["industry"; "market"; "business"; "technology"; "innovation";
           "news"; "announcement"; "launch"; "company"; "startup"]%string));
    (lit "favorites",
     mkCategory (11088%N :: lit " Favorites") []) ].

Definition AI_KEYWORDS : list jsstring :=
  List.map lit
    ["ai"; "artificial intelligence"; "machine learning"; "ml";
     "generative"; "neural"; "deep learning"; "algorithm";
     "automated"; "automation"; "computational"; "intelligent";
     "midjourney"; "dall-e"; "dalle"; "stable diffusion";
     "chatgpt"; "gpt"; "llm"; "large language model"]%string.

Section Classifier.
Context {P : Platform}.

(** [`${article.title} ${article.description}`.toLowerCase()] *)
Definition content_of (article : Article) : jsstring :=
  toLowerCase (title article ++ lit " " ++ description article).

(** [keywords.some(keyword => content.includes(keyword.toLowerCase()))] *)
Definition some_keyword (content : jsstring) (kws : list jsstring) : bool :=
  existsb (fun keyword => includes content (toLowerCase keyword)) kws.

Definition isAIRelated (article : Article) : bool :=
  some_keyword (content_of article) AI_KEYWORDS.

(** The [for ... of Object.entries(CATEGORIES)] loop of [categorizeArticle];
    [None] when the loop falls through. *)
Fixpoint categorize_loop (content : jsstring)
    (entries : list (jsstring * CategoryData)) : option jsstring :=
  match entries with
  | [] => None
  | (categoryId, categoryData) :: rest =>
      if str_eqb categoryId (lit "all") || str_eqb categoryId (lit "favorites")
      then categorize_loop content rest
      else if some_keyword content (keywords categoryData)
      then Some categoryId
      else categorize_loop content rest
  end.

(** [None] is the [null] the function returns for an article that is not
    AI-related. *)
Definition categorizeArticle (article : Article) : option Article :=
  if negb (isAIRelated article) then None
  else
    let content := content_of article in
    match categorize_loop content CATEGORIES with
    | Some categoryId => Some (with_category article categoryId)
    | None => Some (with_category article (lit "industry-news"))
    end.

End Classifier.

(* ================================================================= *)
(** ** Array methods used by the pipeline *)

(** [self.findIndex(p)]: the first index whose element satisfies [p], or -1. *)
Fixpoint findIndex {A : Type} (p : A -> bool) (self : list A) : Z :=
  match self with
  | [] => -1
  | x :: rest =>
      if p x then 0
      else let r := findIndex p rest in
           if r <? 0 then -1 else r + 1
  end.

(** [self.filter((x, index, self) => f x index self)] *)
Definition filter_indexed {A : Type} (f : A -> nat -> list A -> bool)
    (self : list A) : list A :=
  List.map fst
    (List.filter (fun xi => f (fst xi) (snd xi) self)
                 (List.combine self (List.seq 0 (List.length self)))).

(** [arr.filter(x => x !== null)] after a [map] that may produce [null]. *)
Fixpoint filter_non_null {A : Type} (l : list (option A)) : list A :=
  match l with
  | [] => []
  | Some x :: l' => x :: filter_non_null l'
  | None :: l' => filter_non_null l'
  end.

(** [Array.prototype.sort(comparefn)].  The comparator yields a number or
    NaN ([None]); the language treats NaN as +0 and requires the sort to be
    stable.  The model is the stable insertion sort: an element moves past
    its right neighbours only while the comparator is strictly positive. *)
Definition cmp_positive (v : option Z) : bool :=
  match v with
  | Some z => 0 <? z
  | None => false
  end.

Fixpoint sort_insert {A : Type} (comparefn : A -> A -> option Z)
    (x : A) (l : list A) : list A :=
  match l with
  | [] => [x]
  | y :: l' =>
      if cmp_positive (comparefn x y) then y :: sort_insert comparefn x l'
      else x :: y :: l'
  end.

Fixpoint Array_sort {A : Type} (comparefn : A -> A -> option Z)
    (l : list A) : list A :=
  match l with
  | [] => []
  | x :: l' => sort_insert comparefn x (Array_sort comparefn l')
  end.

(* ================================================================= *)
(** ** Storage module (localStorage) *)

(** What [JSON.parse] makes of a stored text: the value that was stored, or
    an exception for a text that is not JSON. *)
Inductive Stored (A : Type) : Type :=
| Parsed (a : A)
| Unparsable.
Arguments Parsed {A} a.
Arguments Unparsable {A}.

Record FavoriteRecord := mkFavorite {
  fav_id : jsstring;
  savedAt : jsstring
}.

Record CacheData := mkCacheData {
  timestamp : Z;
  articles : list Article;
  expiresAt : Z
}.

(** The two keys of the application under the prefix [newsTracker_] that
    the pipeline uses; [None] is an absent key. *)
Record LocalStorage := mkStorage {
  ls_favorites : option (Stored (list FavoriteRecord));
  ls_cache : option (Stored CacheData)
}.

Definition empty_storage : LocalStorage := mkStorage None None.

(** The outcome of one [localStorage.setItem] call. *)
Inductive SetItem : Type :=
| SetOk
| QuotaExceededError
| OtherError.

Definition CACHE_DURATION : Z := 3600000.

Section Storage.
Context {P : Platform}.

(** [data ? JSON.parse(data) : []], with the [catch] returning [[]]. *)
Definition getFavorites (st : LocalStorage) : list FavoriteRecord :=
  match ls_favorites st with
  | Some (Parsed favorites) => favorites
  | Some Unparsable => []
  | None => []
  end.

Definition set_favorites (st : LocalStorage) (favorites : list FavoriteRecord)
  : LocalStorage :=
  mkStorage (Some (Parsed favorites)) (ls_cache st).

(** [w] is the outcome of the [setItem] call, [now] the clock value that
    [new Date()] reads for [savedAt]. *)
Definition saveFavorite (w : SetItem) (now : Z) (articleId : jsstring)
    (st : LocalStorage) : bool * LocalStorage :=
  let favorites := getFavorites st in
  if negb (existsb (fun f => str_eqb (fav_id f) articleId) favorites) then
    let favorites' := favorites ++ [mkFavorite articleId (toISOString now)] in
    match w with
    | SetOk => (true, set_favorites st favorites')
    | _ => (false, st)
    end
  else (false, st).

Definition removeFavorite (w : SetItem) (articleId : jsstring)
    (st : LocalStorage) : bool * LocalStorage :=
  let favorites :=
    List.filter (fun f => negb (str_eqb (fav_id f) articleId))
                (getFavorites st) in
  match w with
  | SetOk => (true, set_favorites st favorites)
  | _ => (false, st)
  end.

(** [isFavorite(articleId)], named apart from the field of an article. *)
Definition isFavoriteId (articleId : jsstring) (st : LocalStorage) : bool :=
  existsb (fun f => str_eqb (fav_id f) articleId) (getFavorites st).

Definition clearFavorites (st : LocalStorage) : bool * LocalStorage :=
  (true, mkStorage None (ls_cache st)).

Definition clearCache (st : LocalStorage) : bool * LocalStorage :=
  (true, mkStorage (ls_favorites st) None).

(** [t_stamp] and [t_expires] are the two clock values the function reads,
    in this order, for [timestamp] and for [expiresAt]. *)
Definition cacheArticles (w : SetItem) (t_stamp t_expires : Z)
    (arts : list Article) (st : LocalStorage) : bool * LocalStorage :=
  let cacheData := mkCacheData t_stamp arts (t_expires + CACHE_DURATION) in
  match w with
  | SetOk => (true, mkStorage (ls_favorites st) (Some (Parsed cacheData)))
  | QuotaExceededError => (false, snd (clearCache st))
  | OtherError => (false, st)
  end.

(** [None] is the [null] of "no cache". *)
Definition getCachedArticles (now : Z) (st : LocalStorage)
  : option (list Article) * LocalStorage :=
  match ls_cache st with
  | None => (None, st)
  | Some Unparsable => (None, st)
  | Some (Parsed cacheData) =>
      if now <? expiresAt cacheData then (Some (articles cacheData), st)
      else (None, snd (clearCache st))
  end.

End Storage.

(** The states of the store the application can bring about from the empty
    store with its storage operations. *)
Inductive reachable {P : Platform} : LocalStorage -> Prop :=
| reach_empty : reachable empty_storage
| reach_saveFavorite w now x st :
    reachable st -> reachable (snd (saveFavorite w now x st))
| reach_removeFavorite w x st :
    reachable st -> reachable (snd (removeFavorite w x st))
| reach_clearFavorites st :
    reachable st -> reachable (snd (clearFavorites st))
| reach_cacheArticles w t1 t2 arts st :
    reachable st -> reachable (snd (cacheArticles w t1 t2 arts st))
| reach_getCachedArticles now st :
    reachable st -> reachable (snd (getCachedArticles now st))
| reach_clearCache st :
    reachable st -> reachable (snd (clearCache st)).

(* ================================================================= *)
(** ** Pipeline orchestrator ([loadFeeds]) *)

(** The clock values the pipeline reads, by the place that reads them. *)
Record Clock := mkClock {
  now_cache_read : Z;          (* getCachedArticles *)
  now_mock : nat -> Z;         (* the k-th Date.now() of getMockArticles *)
  now_normalize : nat -> Z;    (* normalizeArticle of the k-th raw item *)
  now_timestamp : Z;           (* cacheArticles, timestamp *)
  now_expires : Z              (* cacheArticles, expiresAt *)
}.

Section Pipeline.
Context {P : Platform}.

(** One literal of [getMockArticles]; [k] numbers its [Date.now()] call.
    (The description of the last one has three units outside ASCII between
    "architects" and "it's", given here by their numbers.) *)
Definition mock (i : jsstring) (k : nat) (now : nat -> Z) (days : Z)
    (t d l s c : jsstring) : Article :=
  {| id := i;
     title := t; description := d; link := l;
     pubDate := toISOString (now k - days * 86400000);
     source := s; category := c; isFavorite := false |}.

Definition getMockArticles (now : nat -> Z) : list Article :=
  [ mock (lit "mock-1") 0 now 1
      (lit "AI-Powered Parametric Design: The Future of Architecture")
      (lit "Explore how artificial intelligence is revolutionizing parametric design workflows, enabling architects to generate complex, optimized structures in seconds.")
      (lit "https://www.archdaily.com") (lit "ArchDaily")
      (lit "architecture-ai");
    mock (lit "mock-2") 1 now 2
      (lit "Midjourney 7 Released: Game-Changing Features for Architects")
      (lit "The latest version of Midjourney introduces architectural accuracy improvements and better control over spatial relationships, making it an essential tool for concept visualization.")
      (lit "https://www.dezeen.com") (lit "Dezeen")
      (lit "ai-design-tools");
    mock (lit "mock-3") 2 now 3
      (lit "Real-Time Rendering with AI: Enscape vs Lumion AI")
      (lit "A comprehensive comparison of AI-enhanced real-time rendering tools that are transforming architectural visualization workflows.")
      (lit "https://architizer.com") (lit "Architizer")
      (lit "visualization");
    mock (lit "mock-4") 3 now 4
      (lit "Automating BIM Workflows: AI Agents for Revit")
      (lit "Learn how custom AI agents are streamlining repetitive tasks in Revit, saving architectural firms thousands of hours annually.")
      (lit "https://blog.testfit.io") (lit "TestFit")
      (lit "automation");
    mock (lit "mock-5") 4 now 5
      (lit "Interior Design AI: Transform Spaces with Machine Learning")
      (lit "AI-powered interior design tools are enabling designers to generate photorealistic room layouts and furniture arrangements in minutes.")
      (lit "https://www.dezeen.com") (lit "Dezeen")
      (lit "interior-design-ai");
    mock (lit "mock-6") 5 now 6
      (lit "Stable Diffusion for Architecture: Complete Guide")
      (lit "Master Stable Diffusion for architectural visualization with this comprehensive guide covering prompts, models, and best practices.")
      (lit "https://www.archdaily.com") (lit "ArchDaily")
      (lit "ai-design-tools");
    mock (lit "mock-7") 6 now 7
      (lit "AI in Construction: From Design to Built Reality")
      (lit "How artificial intelligence is bridging the gap between architectural design and construction, improving accuracy and reducing costs.")
      (lit "https://architizer.com") (lit "Architizer")
      (lit "industry-news");
    mock (lit "mock-8") 7 now 8
      (lit "Generative AI Reshaping Architectural Visualization")
      (lit "Generative AI is not replacing architects" ++
       [226%N; 8364%N; 8221%N] ++
       lit "it's empowering them to explore more design iterations and create stunning visualizations faster than ever.")
      (lit "https://www.techtimes.com") (lit "Tech Times")
      (lit "visualization") ].

(** The outcome of one [fetchFeed] as [Promise.allSettled] reports it:
    [Some items] for a fulfilled promise with an array, [None] for [null]
    (both proxies failed) or a rejection. *)
Definition FetchResult := option (list RawArticle).

(** The [results.forEach] loop: the items of the sources that delivered. *)
Fixpoint collect (results : list FetchResult) : list RawArticle :=
  match results with
  | [] => []
  | Some value :: rest => value ++ collect rest
  | None :: rest => collect rest
  end.

(** [articles.map(normalizeArticle)], the k-th call reading the clock value
    [now k]. *)
Definition normalizeAll (now : nat -> Z) (raws : list RawArticle)
  : list Article :=
  List.map (fun ri => normalizeArticle (now (snd ri)) (fst ri))
           (List.combine raws (List.seq 0 (List.length raws))).

(** [.filter((article, index, self) =>
       index === self.findIndex(a => a.link === article.link))] *)
Definition dedupe (arts : list Article) : list Article :=
  filter_indexed
    (fun article index self =>
       Z.of_nat index =?
       findIndex (fun a => str_eqb (link a) (link article)) self)
    arts.

(** [(a, b) => new Date(b.pubDate) - new Date(a.pubDate)]; NaN when either
    date is invalid. *)
Definition byDateDesc (a b : Article) : option Z :=
  match Date_parse (pubDate b), Date_parse (pubDate a) with
  | Some tb, Some ta => Some (tb - ta)
  | _, _ => None
  end.

(** The chain that computes [processedArticles]. *)
Definition processArticles (now : nat -> Z) (raws : list RawArticle)
  : list Article :=
  Array_sort byDateDesc
    (filter_non_null
       (List.map categorizeArticle (dedupe (normalizeAll now raws)))).

(** [w] is the outcome of the [setItem] call of [cacheArticles]; [results]
    are the settled outcomes of the fetches, in the order of [RSS_FEEDS].
    No step of the body throws, so the [catch] that rethrows has no case. *)
Definition loadFeeds (clk : Clock) (w : SetItem) (results : list FetchResult)
    (st : LocalStorage) : list Article * LocalStorage :=
  let (cachedArticles, st1) := getCachedArticles (now_cache_read clk) st in
  match cachedArticles with
  | Some (a :: cached) => (a :: cached, st1)
  | _ =>
      let raws := collect results in
      match raws with
      | [] => (getMockArticles (now_mock clk), st1)
      | _ :: _ =>
          let processedArticles := processArticles (now_normalize clk) raws in
          let (_, st2) :=
            cacheArticles w (now_timestamp clk) (now_expires clk)
                          processedArticles st1 in
          (processedArticles, st2)
      end
  end.

End Pipeline.

(* ================================================================= *)
(** ** A platform to run the code on

    [Reference.platform] implements the interface on the inputs the examples
    below use: strings of code units below 256 for the case mappings,
    ISO-8601 UTC timestamps ([YYYY-MM-DDTHH:mm:ss.sssZ], years 0000 to 9999)
    for dates, [http]/[https] URLs of the form [scheme://host/...] and text
    whose character references are the five named ones written with their
    semicolon.  On these inputs it computes what a browser computes. *)

Module Reference.

Definition between (lo hi c : N) : bool := ((lo <=? c) && (c <=? hi))%N.

Definition lower_cu (c : codeunit) : codeunit :=
  if between 65 90 c then (c + 32)%N
  else if between 192 222 c && negb (c =? 215)%N then (c + 32)%N
  else c.

Definition upper_cu (c : codeunit) : jsstring :=
  if between 97 122 c then [(c - 32)%N]
  else if between 224 254 c && negb (c =? 247)%N then [(c - 32)%N]
  else if (c =? 223)%N then [83%N; 83%N]
  else if (c =? 255)%N then [376%N]
  else if (c =? 181)%N then [924%N]
  else [c].

Definition digit (c : codeunit) : option Z :=
  if between 48 57 c then Some (Z.of_N c - 48) else None.

Fixpoint digits_from (acc : Z) (s : jsstring) : option Z :=
  match s with
  | [] => Some acc
  | c :: s' =>
      match digit c with
      | Some d => digits_from (10 * acc + d) s'
      | None => None
      end
  end.

(** The decimal number written by the [len] units of [s] from [pos]. *)
Definition field (pos len : nat) (s : jsstring) : option Z :=
  digits_from 0 (firstn len (skipn pos s)).

Definition is_leap (y : Z) : bool :=
  ((y mod 4 =? 0) && negb (y mod 100 =? 0)) || (y mod 400 =? 0).

Definition days_in_month (y m : Z) : Z :=
  if m =? 2 then (if is_leap y then 29 else 28)
  else if (m =? 4) || (m =? 6) || (m =? 9) || (m =? 11) then 30
  else 31.

(** Days from 1970-01-01 to the civil date [y-m-d]. *)
Definition days_from_civil (y m d : Z) : Z :=
  let y' := if m <=? 2 then y - 1 else y in
  let era := y' / 400 in
  let yoe := y' - era * 400 in
  let mp := (m + 9) mod 12 in
  let doy := (153 * mp + 2) / 5 + d - 1 in
  let doe := yoe * 365 + yoe / 4 - yoe / 100 + doy in
  era * 146097 + doe - 719468.

(** The civil date of the day [z] days after 1970-01-01. *)
Definition civil_from_days (z : Z) : Z * Z * Z :=
  let z' := z + 719468 in
  let era := z' / 146097 in
  let doe := z' - era * 146097 in
  let yoe := (doe - doe / 1460 + doe / 36524 - doe / 146096) / 365 in
  let doy := doe - (365 * yoe + yoe / 4 - yoe / 100) in
  let mp := (5 * doy + 2) / 153 in
  let d := doy - (153 * mp + 2) / 5 + 1 in
  let m := if mp <? 10 then mp + 3 else mp - 9 in
  let y := yoe + era * 400 + (if m <=? 2 then 1 else 0) in
  (y, m, d).

Definition unit_at (pos : nat) (s : jsstring) : codeunit := nth pos s 0%N.

Definition parse_iso (s : jsstring) : option Z :=
  if negb (Nat.eqb (List.length s) 24) then None
  else if negb (cu_eqb (unit_at 4 s) 45%N && cu_eqb (unit_at 7 s) 45%N &&
                cu_eqb (unit_at 10 s) 84%N && cu_eqb (unit_at 13 s) 58%N &&
                cu_eqb (unit_at 16 s) 58%N && cu_eqb (unit_at 19 s) 46%N &&
                cu_eqb (unit_at 23 s) 90%N) then None
  else
    match field 0 4 s, field 5 2 s, field 8 2 s,
          field 11 2 s, field 14 2 s, field 17 2 s, field 20 3 s with
    | Some y, Some m, Some d, Some hh, Some mm, Some ss, Some ms =>
        if (1 <=? m) && (m <=? 12) && (1 <=? d) && (d <=? days_in_month y m)
           && (hh <=? 23) && (mm <=? 59) && (ss <=? 59)
        then Some (days_from_civil y m d * 86400000
                   + hh * 3600000 + mm * 60000 + ss * 1000 + ms)
        else None
    | _, _, _, _, _, _, _ => None
    end.

(** [n] written with [width] decimal digits. *)
Fixpoint pad (width : nat) (n : Z) : jsstring :=
  match width with
  | O => []
  | S w => pad w (n / 10) ++ [Z.to_N (48 + n mod 10)]
  end.

Definition format_iso (t : Z) : jsstring :=
  let days := t / 86400000 in
  let ms := t mod 86400000 in
  let '(y, m, d) := civil_from_days days in
  pad 4 y ++ lit "-" ++ pad 2 m ++ lit "-" ++ pad 2 d ++ lit "T" ++
  pad 2 (ms / 3600000) ++ lit ":" ++ pad 2 (ms / 60000 mod 60) ++ lit ":" ++
  pad 2 (ms / 1000 mod 60) ++ lit "." ++ pad 3 (ms mod 1000) ++ lit "Z".

Fixpoint take_host (s : jsstring) : jsstring :=
  match s with
  | [] => []
  | c :: s' =>
      if cu_eqb c 47%N || cu_eqb c 63%N || cu_eqb c 35%N || cu_eqb c 58%N
      then []
      else lower_cu c :: take_host s'
  end.

Definition hostname (url : jsstring) : option jsstring :=
  let rest :=
    if startsWith (lit "https://") url then Some (skipn 8 url)
    else if startsWith (lit "http://") url then Some (skipn 7 url)
    else None in
  match rest with
  | Some r => match take_host r with [] => None | h => Some h end
  | None => None
  end.

(** [skip] counts the units of a recognised reference still to drop. *)
Fixpoint decode_from (skip : nat) (s : jsstring) : jsstring :=
  match s with
  | [] => []
  | c :: s' =>
      match skip with
      | S k => decode_from k s'
      | O =>
          if startsWith (lit "&amp;") s then 38%N :: decode_from 4 s'
          else if startsWith (lit "&lt;") s then 60%N :: decode_from 3 s'
          else if startsWith (lit "&gt;") s then 62%N :: decode_from 3 s'
          else if startsWith (lit "&quot;") s then 34%N :: decode_from 5 s'
          else if startsWith (lit "&#39;") s then 39%N :: decode_from 4 s'
          else c :: decode_from 0 s'
      end
  end.

Definition platform : Platform :=
  {| toLowerCase := List.map lower_cu;
     toUpperCase := fun s => List.flat_map upper_cu s;
     Date_parse := parse_iso;
     toISOString := format_iso;
     URL_hostname := hostname;
     decodeEntities := decode_from 0 |}.

End Reference.

(* ================================================================= *)
(** ** Vocabulary of the statements *)

(** The ASCII part of the Unicode lower-case mapping. *)
Definition ascii_lower_cu (c : codeunit) : codeunit :=
  if ((65 <=? c) && (c <=? 90))%N then (c + 32)%N else c.

Definition is_ascii (s : jsstring) : Prop := Forall (fun c => (c < 128)%N) s.

(** [w] spells the ASCII word [kw] in some mixture of letter cases. *)
Definition any_case (kw w : jsstring) : Prop :=
  is_ascii w /\ List.map ascii_lower_cu w = kw.

(** [p] occurs in [s]. *)
Definition occurs_in (p s : jsstring) : Prop :=
  exists pre post, s = pre ++ p ++ post.

(** What the Unicode default case conversion guarantees for ASCII text:
    an ASCII string is lower-cased unit by unit, and an ASCII run inside
    any string is lower-cased in place, whatever surrounds it. *)
Class AsciiCase (P : Platform) : Prop := {
  lower_ascii : forall w,
    is_ascii w -> toLowerCase w = List.map ascii_lower_cu w;
  lower_inside : forall pre w post,
    is_ascii w -> occurs_in (List.map ascii_lower_cu w)
                            (toLowerCase (pre ++ w ++ post))
}.


(** The number of favorite records with the id [x]. *)
Definition count_id (x : jsstring) (favorites : list FavoriteRecord) : nat :=
  List.length (List.filter (fun f => str_eqb (fav_id f) x) favorites).

(** No two favorite records of the store share an id. *)
Definition fav_unique (st : LocalStorage) : Prop :=
  NoDup (List.map fav_id (getFavorites st)).

Definition jsstring_eq_dec : forall s t : jsstring, {s = t} + {s <> t} :=
  list_eq_dec N.eq_dec.

(** The number of distinct links among the articles. *)
Definition distinct_links (arts : list Article) : nat :=
  List.length (nodup jsstring_eq_dec (List.map link arts)).

(** The articles of [rest] whose link occurs neither in [pre] nor earlier in
    [rest]: the first occurrences, in encounter order. *)
Fixpoint first_occurrences (pre rest : list Article) : list Article :=
  match rest with
  | [] => []
  | a :: rest' =>
      if existsb (fun b => str_eqb (link b) (link a)) pre
      then first_occurrences (pre ++ [a]) rest'
      else a :: first_occurrences (pre ++ [a]) rest'
  end.

(** The parsed date of an article, and whether it has one. *)
Definition date_key {P : Platform} (a : Article) : Z :=
  match Date_parse (pubDate a) with
  | Some t => t
  | None => 0
  end.

Definition valid_date {P : Platform} (a : Article) : Prop :=
  exists t, Date_parse (pubDate a) = Some t.

(** No source delivered an item. *)
Definition no_items (results : list FetchResult) : Prop :=
  Forall (fun r => r = None \/ r = Some []) results.

(** The cache holds no usable entry at the instant [now]. *)
Definition cache_miss (now : Z) (st : LocalStorage) : Prop :=
  fst (getCachedArticles now st) = None \/
  fst (getCachedArticles now st) = Some [].




(** [b] does not come before [a] in a list ordered by [key], largest first. *)
Definition descending {A : Type} (key : A -> Z) (a b : A) : Prop :=
  key b <= key a.

(** What removing the markup means, apart from the code: scanning from
    the left, a ['<'] together with everything up to the first ['>'] after
    it is dropped; a ['<'] that no ['>'] follows, and every other unit, is
    kept. *)
Inductive Stripped : jsstring -> jsstring -> Prop :=
| Stripped_end : Stripped [] []
| Stripped_tag (body rest out : jsstring) :
    ~ In GT body -> Stripped rest out ->
    Stripped (LT :: body ++ GT :: rest) out
| Stripped_unit (c : codeunit) (rest out : jsstring) :
    c <> LT \/ ~ In GT rest -> Stripped rest out ->
    Stripped (c :: rest) (c :: out).

(** A lower-case ASCII string, decidably. *)
Definition is_lower_ascii (kw : jsstring) : bool :=
  forallb (fun c => (c <? 128)%N && (ascii_lower_cu c =? c)%N) kw.

(** The category identifiers that can be assigned, in table order. *)
Definition is_pseudo (categoryId : jsstring) : bool :=
  str_eqb categoryId (lit "all") || str_eqb categoryId (lit "favorites").

Definition real_categories : list (jsstring * CategoryData) :=
  List.filter (fun e => negb (is_pseudo (fst e))) CATEGORIES.

Definition real_category_ids : list jsstring :=
  List.map lit
    ["ai-design-tools"; "visualization"; "automation"; "architecture-ai";
     "interior-design-ai"; "industry-news"]%string.

(** A category entry one of whose keywords occurs in [content]. *)
Definition matches {P : Platform} (content : jsstring)
    (e : jsstring * CategoryData) : bool :=
  some_keyword content (keywords (snd e)).

(** The first category of the table, pseudo-categories left out, that
    matches; the fallback category when none does. *)
Definition assigned_category {P : Platform} (content : jsstring) : jsstring :=
  match List.find (matches content) real_categories with
  | Some e => fst e
  | None => lit "industry-news"
  end.




(* ================================================================= *)
(** ** Further string functions of the language *)

(** The code units [trim] removes: the white space and line terminator
    characters of the language, all of them single units. *)
Definition is_whitespace (c : codeunit) : bool :=
  ((9 <=? c) && (c <=? 13) || (c =? 32) || (c =? 160) || (c =? 5760)
   || (8192 <=? c) && (c <=? 8202) || (c =? 8232) || (c =? 8233)
   || (c =? 8239) || (c =? 8287) || (c =? 12288) || (c =? 65279))%N.

Fixpoint trimStart (s : jsstring) : jsstring :=
  match s with
  | [] => []
  | c :: s' => if is_whitespace c then trimStart s' else s
  end.

(** [s.trim()] *)
Definition trim (s : jsstring) : jsstring :=
  List.rev (trimStart (List.rev (trimStart s))).

(** The decimal numeral of a non-negative integer, as a template literal
    writes a number. *)
Fixpoint toString10_aux (fuel : nat) (n : N) (acc : jsstring) : jsstring :=
  match fuel with
  | O => acc
  | S fuel' =>
      let acc' := (48 + n mod 10)%N :: acc in
      if (n / 10 =? 0)%N then acc' else toString10_aux fuel' (n / 10)%N acc'
  end.

Definition toString10 (n : N) : jsstring :=
  toString10_aux (S (N.to_nat (N.log2 n))) n [].

(* ================================================================= *)
(** ** Feed parsing and fetching ([rss-proxy.js]) *)

(** An element of the parsed feed, as the code looks at it:
    [text_of sel] is [el.querySelector(sel)?.textContent] and [link_href] is
    [el.querySelector('link')?.getAttribute('href')]; [None] when there is
    no such element or attribute. *)
Record XmlElement := mkElement {
  text_of : jsstring -> option jsstring;
  link_href : option jsstring
}.

(** The document: what [querySelectorAll('item')] and
    [querySelectorAll('entry')] return. *)
Record XmlDocument := mkDocument {
  rssItems : list XmlElement;
  atomEntries : list XmlElement
}.

Section Feeds.
Context {P : Platform}.

(** [now] is the clock value the default of [pubDate] reads. *)
Definition parseItem (now : Z) (item : XmlElement) : RawArticle :=
  {| raw_title := Some (or_else (text_of item (lit "title")) (lit "Untitled"));
     raw_description := Some (or_else (text_of item (lit "description")) []);
     raw_content := None;
     raw_link := Some (or_else (text_of item (lit "link")) []);
     raw_pubDate :=
       Some (or_else (text_of item (lit "pubDate")) (toISOString now));
     raw_guid := Some (or_else (text_of item (lit "guid")) []) |}.

Definition parseEntry (now : Z) (entry : XmlElement) : RawArticle :=
  {| raw_title := Some (or_else (text_of entry (lit "title")) (lit "Untitled"));
     raw_description :=
       Some (or_else (text_of entry (lit "summary"))
                     (or_else (text_of entry (lit "content")) []));
     raw_content := None;
     raw_link := Some (or_else (link_href entry) []);
     raw_pubDate :=
       Some (or_else (text_of entry (lit "published"))
                     (or_else (text_of entry (lit "updated"))
                              (toISOString now)));
     raw_guid := Some (or_else (text_of entry (lit "id")) []) |}.

(** The [forEach] loops, the k-th element reading the clock value [now k]. *)
Definition parse_each (f : Z -> XmlElement -> RawArticle) (now : nat -> Z)
    (els : list XmlElement) : list RawArticle :=
  List.map (fun ei => f (now (snd ei)) (fst ei))
           (List.combine els (List.seq 0 (List.length els))).

Definition parseXMLFeed (now : nat -> Z) (xmlDoc : XmlDocument)
  : list RawArticle :=
  match rssItems xmlDoc with
  | _ :: _ => parse_each parseItem now (rssItems xmlDoc)
  | [] =>
      match atomEntries xmlDoc with
      | _ :: _ => parse_each parseEntry now (atomEntries xmlDoc)
      | [] => []
      end
  end.





(** [formatDate]: [now] is the clock value of [new Date()];
    [toLocaleDateString] is the platform's
    [date.toLocaleDateString('en-US', {year, month: 'short', day})] of a
    time value, [None] being the invalid date.  A date that does not parse
    makes [diffDays] NaN, every comparison false and the last branch the
    one taken; nothing in the body throws. *)
Definition formatDate (toLocaleDateString : option Z -> jsstring) (now : Z)
    (dateString : jsstring) : jsstring :=
  match Date_parse dateString with
  | None => toLocaleDateString None
  | Some date =>
      let diffTime := Z.abs (now - date) in
      let diffDays := diffTime / (1000 * 60 * 60 * 24) in
      if diffDays =? 0 then lit "Today"
      else if diffDays =? 1 then lit "Yesterday"
      else if diffDays <? 7 then
        toString10 (Z.to_N diffDays) ++ lit " days ago"
      else if diffDays <? 30 then
        let weeks := diffDays / 7 in
        toString10 (Z.to_N weeks) ++ lit " " ++
        (if weeks =? 1 then lit "week" else lit "weeks") ++ lit " ago"
      else toLocaleDateString (Some date)
  end.

End Feeds.

(* ================================================================= *)
(** ** Filtering and searching (categorisation module) *)

Section Filters.
Context {P : Platform}.

(** [favoriteIds.includes(article.id)] *)
Definition array_includes (ids : list jsstring) (x : jsstring) : bool :=
  existsb (fun y => str_eqb y x) ids.

Definition filterArticles (arts : list Article) (categoryId : jsstring)
    (st : LocalStorage) : list Article :=
  if str_eqb categoryId (lit "all") then arts
  else if str_eqb categoryId (lit "favorites") then
    let favoriteIds := List.map fav_id (getFavorites st) in
    List.filter (fun article => array_includes favoriteIds (id article)) arts
  else List.filter (fun article => str_eqb (category article) categoryId) arts.

Definition getAllCategoryIds : list jsstring := List.map fst CATEGORIES.

(** The [counts] object, as the list of its entries in insertion order. *)
Definition getArticleCountByCategory (arts : list Article) (st : LocalStorage)
  : list (jsstring * nat) :=
  List.map
    (fun categoryId =>
       if str_eqb categoryId (lit "all") then (categoryId, List.length arts)
       else if str_eqb categoryId (lit "favorites") then
         let favoriteIds := List.map fav_id (getFavorites st) in
         (categoryId,
          List.length
            (List.filter (fun a => array_includes favoriteIds (id a)) arts))
       else
         (categoryId,
          List.length
            (List.filter (fun a => str_eqb (category a) categoryId) arts)))
    (List.map fst CATEGORIES).

(** [counts[categoryId]], 0 standing for [undefined]. *)
Definition count_of (counts : list (jsstring * nat)) (categoryId : jsstring)
  : nat :=
  match List.find (fun e => str_eqb (fst e) categoryId) counts with
  | Some e => snd e
  | None => 0%nat
  end.

(** [query] is [None] for [undefined] or [null]. *)
Definition searchArticles (arts : list Article) (query : option jsstring)
  : list Article :=
  match query with
  | None => arts
  | Some [] => arts
  | Some q =>
      if str_eqb (trim q) [] then arts
      else
        let lowerQuery := trim (toLowerCase q) in
        List.filter
          (fun article =>
             includes (toLowerCase (title article)) lowerQuery
             || includes (toLowerCase (description article)) lowerQuery
             || includes (toLowerCase (source article)) lowerQuery)
          arts
  end.

End Filters.

(* ================================================================= *)
(** ** Preferences and the whole of localStorage (storage module) *)

Record Preferences := mkPreferences {
  lastVisit : option jsstring;
  selectedCategory : jsstring
}.

(** All of localStorage: the two keys of [LocalStorage], the key
    [newsTracker_preferences], and every other key with its text, in the
    order [Object.keys] lists them. *)
Record AppStorage := mkAppStorage {
  core : LocalStorage;
  ls_preferences : option (Stored Preferences);
  others : list (jsstring * jsstring)
}.

Definition STORAGE_PREFIX : jsstring := lit "newsTracker_".

Definition default_preferences : Preferences :=
  mkPreferences None (lit "all").

Section Preferences.
Context {P : Platform}.

Definition savePreferences (w : SetItem) (preferences : Preferences)
    (st : AppStorage) : bool * AppStorage :=
  match w with
  | SetOk =>
      (true, mkAppStorage (core st) (Some (Parsed preferences)) (others st))
  | _ => (false, st)
  end.

Definition getPreferences (st : AppStorage) : Preferences :=
  match ls_preferences st with
  | Some (Parsed preferences) => preferences
  | Some Unparsable => default_preferences
  | None => default_preferences
  end.

Definition updateLastVisit (w : SetItem) (now : Z) (st : AppStorage)
  : AppStorage :=
  let preferences := getPreferences st in
  let preferences' :=
    mkPreferences (Some (toISOString now)) (selectedCategory preferences) in
  snd (savePreferences w preferences' st).

(** Every key that starts with the prefix is removed. *)
Definition clearAllData (st : AppStorage) : bool * AppStorage :=
  (true,
   mkAppStorage empty_storage None
     (List.filter (fun kv => negb (startsWith STORAGE_PREFIX (fst kv)))
                  (others st))).

End Preferences.

(* ================================================================= *)
(** ** The favorite flags of the application ([script.js])

    Of [initApp] and [toggleFavorite], the effect on the article list
    [allArticles] and on the store; the button and the rendering are the
    view. *)

Section AppState.
Context {P : Platform}.

(** The loop of [initApp] that marks the favorites. *)
Definition markFavorites (allArticles : list Article) (st : LocalStorage)
  : list Article :=
  let favorites := getFavorites st in
  List.map
    (fun article =>
       mkArticle (id article) (title article) (description article)
                 (link article) (pubDate article) (source article)
                 (category article)
                 (existsb (fun f => str_eqb (fav_id f) (id article)) favorites))
    allArticles.

Definition set_isFavorite (a : Article) (b : bool) : Article :=
  mkArticle (id a) (title a) (description a) (link a) (pubDate a)
            (source a) (category a) b.

(** [article.isFavorite = b] on the article [allArticles.find] returns:
    the first one with the id. *)
Fixpoint set_first (articleId : jsstring) (b : bool)
    (allArticles : list Article) : list Article :=
  match allArticles with
  | [] => []
  | a :: rest =>
      if str_eqb (id a) articleId then set_isFavorite a b :: rest
      else a :: set_first articleId b rest
  end.

Definition toggleFavorite (w : SetItem) (now : Z) (articleId : jsstring)
    (allArticles : list Article) (st : LocalStorage)
  : list Article * LocalStorage :=
  match List.find (fun a => str_eqb (id a) articleId) allArticles with
  | None => (allArticles, st)
  | Some article =>
      if isFavorite article then
        let (removed, st') := removeFavorite w articleId st in
        if removed then (set_first articleId false allArticles, st')
        else (allArticles, st')
      else
        let (saved, st') := saveFavorite w now articleId st in
        if saved then (set_first articleId true allArticles, st')
        else (allArticles, st')
  end.

End AppState.

(* ================================================================= *)
(** ** Vocabulary of the further statements *)

(** A digit of a base-36 numeral: [0-9a-z]. *)
Definition is_digit36 (c : codeunit) : Prop :=
  (48 <= c <= 57)%N \/ (97 <= c <= 122)%N.

(** The labels [formatDate] builds itself. *)
Definition relative_labels : list jsstring :=
  List.map lit
    ["Today"; "Yesterday"; "2 days ago"; "3 days ago"; "4 days ago";
     "5 days ago"; "6 days ago"; "1 week ago"; "2 weeks ago"; "3 weeks ago";
     "4 weeks ago"]%string.

(** The flag of every article says whether its id is in the store. *)
Definition in_sync (allArticles : list Article) (st : LocalStorage) : Prop :=
  forall a, In a allArticles -> isFavorite a = isFavoriteId (id a) st.

(** The articles without their flags. *)
Definition unflagged (allArticles : list Article) : list Article :=
  List.map (fun a => mkArticle (id a) (title a) (description a) (link a)
                               (pubDate a) (source a) (category a) false)
           allArticles.

(** The sum of the numbers [f c] over the ids [cs]. *)
Definition sum_over (f : jsstring -> nat) (cs : list jsstring) : nat :=
  List.fold_right (fun c n => (f c + n)%nat) 0%nat cs.

(** The place in [relative_labels] of the label for a date [d] whole days
    away, [d] below 30. *)
Definition label_index (d : Z) : nat :=
  if d <? 7 then Z.to_nat d else Z.to_nat (d / 7 + 6).

(* ================================================================= *)
(** ** Example data *)

Module Examples.

Definition article (t d : string) : Article :=
  {| id := lit "article-1"; title := lit t; description := lit d;
     link := lit "https://example.com/a"; pubDate := lit "2024-01-03T00:00:00.000Z";
     source := lit "Example"; category := lit "industry-news";
     isFavorite := false |}.

Definition midjourney_article : Article :=
  article "Concept art with MidJourney" "A studio shows its process.".

Definition cooking_article : Article :=
  article "Ten recipes for the weekend" "Soup, bread and a cake.".

(** Matches a keyword of [ai-design-tools] ("ai tool") and of
    [architecture-ai] ("architect"). *)
Definition both_article : Article :=
  article "An AI tool every architect should try" "Hands-on review.".

(** Relevant ("gpt") but without a keyword of any category. *)
Definition plain_article : Article :=
  article "What GPT can do" "An overview.".

Definition raw (t d l p : string) : RawArticle :=
  mkRaw (Some (lit t)) (Some (lit d)) None (Some (lit l)) (Some (lit p)) None.

(** The same link under two different titles, descriptions and dates. *)
Definition raw_first : RawArticle :=
  raw "AI tool of the week" "First copy." "https://example.com/a"
      "2024-01-03T00:00:00.000Z".

Definition raw_second : RawArticle :=
  raw "Syndicated: AI tool of the week" "Second copy." "https://example.com/a"
      "2024-01-05T00:00:00.000Z".

(** A third item: another link, not about AI. *)
Definition raw_cooking : RawArticle :=
  raw "Ten recipes for the weekend" "Soup, bread and a cake."
      "https://example.com/b" "2024-01-04T00:00:00.000Z".

(** An item whose date no engine parses, then a dated one. *)
Definition raw_undated : RawArticle :=
  raw "AI tool roundup" "No date in this feed." "https://example.com/c"
      "not a date".

Definition raw_dated : RawArticle :=
  raw "Midjourney for interiors" "A dated item." "https://example.com/d"
      "2024-01-09T00:00:00.000Z".

(** Three items dated one, three and two days before 2024-01-10. *)
Definition raw_day1 : RawArticle :=
  raw "AI tool one" "First." "https://example.com/1" "2024-01-09T00:00:00.000Z".

Definition raw_day3 : RawArticle :=
  raw "AI tool two" "Second." "https://example.com/2" "2024-01-07T00:00:00.000Z".

Definition raw_day2 : RawArticle :=
  raw "AI tool three" "Third." "https://example.com/3" "2024-01-08T00:00:00.000Z".

(** 2024-01-10T00:00:00.000Z at every read of the clock. *)
Definition T : Z := 1704844800000.

Definition clock : Clock :=
  mkClock T (fun _ => T) (fun _ => T) T T.

End Examples.

(** Further example data. *)
Module MoreExamples.

(** Two items that have neither a link nor a guid. *)
Definition raw_bare (t : string) : RawArticle :=
  mkRaw (Some (lit t)) (Some (lit "About an AI tool.")) None None
        (Some (lit "2024-01-09T00:00:00.000Z")) None.

Definition flagged (i t : string) (b : bool) : Article :=
  {| id := lit i; title := lit t; description := lit "An AI tool.";
     link := lit "https://example.com/" ++ lit i;
     pubDate := lit "2024-01-03T00:00:00.000Z";
     source := lit "Example"; category := lit "ai-design-tools";
     isFavorite := b |}.

(** [toLocaleDateString('en-US', {year: 'numeric', month: 'short',
    day: 'numeric'})] in the UTC time zone. *)
Definition month_names : list jsstring :=
  List.map lit ["Jan"; "Feb"; "Mar"; "Apr"; "May"; "Jun";
                "Jul"; "Aug"; "Sep"; "Oct"; "Nov"; "Dec"]%string.

Definition en_US_date (t : option Z) : jsstring :=
  match t with
  | None => lit "Invalid Date"
  | Some t =>
      let '(y, m, d) := Reference.civil_from_days (t / 86400000) in
      nth (Z.to_nat (m - 1)) month_names [] ++ lit " " ++
      toString10 (Z.to_N d) ++ lit ", " ++ toString10 (Z.to_N y)
  end.

(** An RSS item with a title and a link only, and an Atom entry. *)
Definition item_el : XmlElement :=
  mkElement
    (fun sel =>
       if str_eqb sel (lit "title") then Some (lit "AI tool from RSS")
       else if str_eqb sel (lit "link") then Some (lit "https://example.com/rss")
       else None)
    None.

Definition entry_el : XmlElement :=
  mkElement
    (fun sel =>
       if str_eqb sel (lit "title") then Some (lit "AI tool from Atom")
       else if str_eqb sel (lit "updated")
       then Some (lit "2024-01-08T00:00:00.000Z")
       else None)
    (Some (lit "https://example.com/atom")).

Definition library : list Article :=
  [flagged "a" "Midjourney in practice" false;
   flagged "b" "Rendering farms" false].

End MoreExamples.
(* ================================================================= *)
(** ** Tactics *)

(** Settle one integer comparison of the goal by linear arithmetic. *)
Ltac Zltb_true :=
  match goal with
  | |- context [?x <? ?y] =>
      replace (x <? y) with true by (symmetry; apply Z.ltb_lt; lia)
  end.

Ltac Zltb_false :=
  match goal with
  | |- context [?x <? ?y] =>
      replace (x <? y) with false by (symmetry; apply Z.ltb_ge; lia)
  end.

(* ================================================================= *)
(** ** Strings: facts *)

Lemma cu_eqb_eq (a b : codeunit) : cu_eqb a b = true <-> a = b.
Proof. unfold cu_eqb. apply N.eqb_eq. Qed.

Lemma str_eqb_eq (s t : jsstring) : str_eqb s t = true <-> s = t.
Proof.
  revert t. induction s as [|a s IH]; intros [|b t]; simpl; split;
    try congruence; try reflexivity.
  - intros H. apply andb_true_iff in H as [Hab Hst].
    apply cu_eqb_eq in Hab. apply IH in Hst. congruence.
  - intros H. injection H as -> ->. apply andb_true_iff. split.
    + now apply cu_eqb_eq.
    + now apply IH.
Qed.

Lemma str_eqb_refl (s : jsstring) : str_eqb s s = true.
Proof. now apply str_eqb_eq. Qed.

Lemma str_eqb_neq (s t : jsstring) : str_eqb s t = false <-> s <> t.
Proof.
  split.
  - intros H E. apply str_eqb_eq in E. congruence.
  - intros H. destruct (str_eqb s t) eqn:E; [|reflexivity].
    apply str_eqb_eq in E. contradiction.
Qed.

Lemma startsWith_spec (p s : jsstring) :
  startsWith p s = true <-> exists post, s = p ++ post.
Proof.
  revert s. induction p as [|a p IH]; intros s; simpl.
  - split; [intros _; now exists s | reflexivity].
  - destruct s as [|b s].
    + split; [discriminate | intros [post H]; discriminate].
    + rewrite andb_true_iff, cu_eqb_eq, IH. split.
      * intros [-> [post ->]]. now exists post.
      * intros [post H]. injection H as -> ->. split; [reflexivity|].
        now exists post.
Qed.

Lemma includes_spec (s p : jsstring) : includes s p = true <-> occurs_in p s.
Proof.
  unfold occurs_in. induction s as [|c s IH]; simpl.
  - rewrite orb_false_r, startsWith_spec. split.
    + intros [post H]. now exists [], post.
    + intros [pre [post H]]. destruct pre; [now exists post|discriminate].
  - rewrite orb_true_iff, startsWith_spec, IH. split.
    + intros [[post H] | [pre [post H]]].
      * now exists [], post.
      * exists (c :: pre), post. simpl. now f_equal.
    + intros [[|c' pre] [post H]].
      * left. now exists post.
      * right. injection H as -> ->. now exists pre, post.
Qed.

Lemma occurs_in_app_l (p s t : jsstring) : occurs_in p s -> occurs_in p (s ++ t).
Proof.
  intros [pre [post ->]]. exists pre, (post ++ t).
  now rewrite <- !app_assoc.
Qed.

Lemma occurs_in_app_r (p s t : jsstring) : occurs_in p t -> occurs_in p (s ++ t).
Proof.
  intros [pre [post ->]]. exists (s ++ pre), post.
  now rewrite <- !app_assoc.
Qed.

Lemma is_lower_ascii_spec (kw : jsstring) :
  is_lower_ascii kw = true -> is_ascii kw /\ List.map ascii_lower_cu kw = kw.
Proof.
  unfold is_lower_ascii, is_ascii. induction kw as [|c kw IH]; simpl.
  - intros _. split; constructor.
  - intros H. apply andb_true_iff in H as [Hc Hkw].
    apply andb_true_iff in Hc as [Hlt Hlow].
    apply N.ltb_lt in Hlt. apply N.eqb_eq in Hlow.
    destruct (IH Hkw) as [Ha Hm]. split.
    + now constructor.
    + now rewrite Hlow, Hm.
Qed.

Lemma toLowerCase_keyword {P : Platform} {L : AsciiCase P} (kw : jsstring) :
  is_lower_ascii kw = true -> toLowerCase kw = kw.
Proof.
  intros H. apply is_lower_ascii_spec in H as [Ha Hm].
  rewrite lower_ascii by exact Ha. exact Hm.
Qed.

(** Every keyword of the two tables is lower-case ASCII. *)
Lemma AI_KEYWORDS_lower : forallb is_lower_ascii AI_KEYWORDS = true.
Proof. vm_compute. reflexivity. Qed.

Lemma CATEGORIES_lower :
  forallb (fun e => forallb is_lower_ascii (keywords (snd e))) CATEGORIES = true.
Proof. vm_compute. reflexivity. Qed.

Lemma real_categories_ids : List.map fst real_categories = real_category_ids.
Proof. vm_compute. reflexivity. Qed.

(* ================================================================= *)
(** ** Classifier: facts *)



Section ClassifierFacts.
Context {P : Platform}.

Lemma some_keyword_intro (content : jsstring) (kws : list jsstring) (kw : jsstring) :
  In kw kws -> includes content (toLowerCase kw) = true ->
  some_keyword content kws = true.
Proof.
  intros Hin Hinc. unfold some_keyword. apply existsb_exists. now exists kw.
Qed.

(** The loop with its two [continue]s is a search through the table without
    the pseudo-categories. *)
Lemma categorize_loop_find (content : jsstring)
    (entries : list (jsstring * CategoryData)) :
  categorize_loop content entries =
  option_map fst
    (List.find (matches content)
       (List.filter (fun e => negb (is_pseudo (fst e))) entries)).
Proof.
  induction entries as [|[categoryId categoryData] rest IH]; simpl.
  - reflexivity.
  - unfold is_pseudo at 1. simpl.
    destruct (str_eqb categoryId (lit "all")
              || str_eqb categoryId (lit "favorites")); simpl.
    + exact IH.
    + unfold matches at 1. simpl.
      destruct (some_keyword content (keywords categoryData)); simpl.
      * reflexivity.
      * exact IH.
Qed.

Lemma categorizeArticle_relevant (a : Article) :
  isAIRelated a = true ->
  categorizeArticle a =
  Some (with_category a (assigned_category (content_of a))).
Proof.
  intros H. unfold categorizeArticle, assigned_category. rewrite H. cbn [negb].
  rewrite categorize_loop_find. fold real_categories.
  now destruct (List.find (matches (content_of a)) real_categories).
Qed.

Lemma categorizeArticle_irrelevant (a : Article) :
  isAIRelated a = false -> categorizeArticle a = None.
Proof. intros H. unfold categorizeArticle. now rewrite H. Qed.

Lemma assigned_category_real (content : jsstring) :
  In (assigned_category content) real_category_ids.
Proof.
  unfold assigned_category.
  destruct (List.find (matches content) real_categories) as [e|] eqn:Hf.
  - apply find_some in Hf as [Hin _]. rewrite <- real_categories_ids.
    now apply in_map.
  - unfold real_category_ids. cbn [List.map In]. tauto.
Qed.

Lemma categorizeArticle_some (a a' : Article) :
  categorizeArticle a = Some a' ->
  isAIRelated a = true /\
  a' = with_category a (assigned_category (content_of a)).
Proof.
  intros H. destruct (isAIRelated a) eqn:Hrel.
  - split; [reflexivity|]. rewrite (categorizeArticle_relevant _ Hrel) in H.
    congruence.
  - rewrite (categorizeArticle_irrelevant _ Hrel) in H. discriminate.
Qed.

End ClassifierFacts.

Lemma real_category_ids_not_pseudo :
  forallb (fun c => negb (is_pseudo c)) real_category_ids = true.
Proof. vm_compute. reflexivity. Qed.

Lemma first_real_category :
  exists d rest,
    real_categories = (lit "ai-design-tools", d) :: rest /\
    In (lit "midjourney") (keywords d).
Proof.
  eexists. eexists. split.
  - unfold real_categories, CATEGORIES. simpl. reflexivity.
  - simpl. left. reflexivity.
Qed.


(* ================================================================= *)
(** ** Classifier: the stated properties *)

Lemma lower_cu_ascii (c : codeunit) :
  (c < 128)%N -> Reference.lower_cu c = ascii_lower_cu c.
Proof.
  intros H. unfold Reference.lower_cu, ascii_lower_cu, Reference.between.
  destruct ((65 <=? c)%N && (c <=? 90)%N); [reflexivity|].
  replace (192 <=? c)%N with false; [reflexivity|].
  symmetry. apply N.leb_gt. lia.
Qed.

Lemma Reference_AsciiCase : AsciiCase Reference.platform.
Proof.
  split; simpl.
  - intros w Hw. apply map_ext_in. intros c Hc. apply lower_cu_ascii.
    unfold is_ascii in Hw. rewrite Forall_forall in Hw. now apply Hw.
  - intros pre w post Hw. rewrite !map_app.
    exists (List.map Reference.lower_cu pre), (List.map Reference.lower_cu post).
    do 2 f_equal. apply map_ext_in. intros c Hc. apply lower_cu_ascii.
    unfold is_ascii in Hw. rewrite Forall_forall in Hw. now apply Hw.
Defined.

Lemma content_of_occurs {P : Platform} {L : AsciiCase P} (a : Article)
    (kw w : jsstring) :
  any_case kw w ->
  occurs_in w (title a) \/ occurs_in w (description a) ->
  occurs_in kw (content_of a).
Proof.
  intros [Hascii Hlow] Hocc.
  assert (Hin : occurs_in w (title a ++ lit " " ++ description a)).
  { destruct Hocc as [Ht | Hd].
    - now apply occurs_in_app_l.
    - apply occurs_in_app_r. now apply occurs_in_app_r. }
  destruct Hin as [pre [post Heq]]. unfold content_of. rewrite Heq, <- Hlow.
  now apply lower_inside.
Qed.

(** C1.  An article whose title or description contains "Midjourney" in any
    letter case is kept by [categorizeArticle] and gets the category
    [ai-design-tools]; an article whose lower-cased title and description
    contain no keyword of [AI_KEYWORDS] is dropped ([null]). *)
Theorem classify_midjourney_and_gate {P : Platform} {L : AsciiCase P} :
  (forall (a : Article) (w : jsstring),
      any_case (lit "midjourney") w ->
      occurs_in w (title a) \/ occurs_in w (description a) ->
      exists a', categorizeArticle a = Some a' /\
                 category a' = lit "ai-design-tools") /\
  (forall a : Article,
      (forall kw, In kw AI_KEYWORDS -> ~ occurs_in kw (content_of a)) ->
      categorizeArticle a = None).
Proof.
  split.
  - intros a w Hw Hocc.
    assert (Hc : includes (content_of a) (toLowerCase (lit "midjourney")) = true).
    { rewrite toLowerCase_keyword by reflexivity.
      apply includes_spec. eapply content_of_occurs; eassumption. }
    assert (Hrel : isAIRelated a = true).
    { apply some_keyword_intro with (kw := lit "midjourney"); [|exact Hc].
      unfold AI_KEYWORDS. apply in_map. simpl. tauto. }
    rewrite (categorizeArticle_relevant _ Hrel). eexists. split; [reflexivity|].
    destruct first_real_category as [d [rest [Hreal Hin]]].
    unfold assigned_category. rewrite Hreal. cbn [List.find].
    replace (matches (content_of a) (lit "ai-design-tools", d)) with true.
    + reflexivity.
    + symmetry. unfold matches. cbn [snd].
      now apply some_keyword_intro with (kw := lit "midjourney").
  - intros a Hnone. apply categorizeArticle_irrelevant.
    unfold isAIRelated, some_keyword.
    destruct (existsb _ AI_KEYWORDS) eqn:He; [|reflexivity].
    apply existsb_exists in He as [kw [Hin Hinc]].
    assert (Hlow : is_lower_ascii kw = true).
    { pose proof AI_KEYWORDS_lower as Hall.
      rewrite forallb_forall in Hall. now apply Hall. }
    rewrite (toLowerCase_keyword _ Hlow) in Hinc.
    apply includes_spec in Hinc. now apply Hnone in Hinc.
Qed.

Lemma no_keyword_by_computation (content : jsstring) (kws : list jsstring) :
  forallb (fun kw => negb (includes content kw)) kws = true ->
  forall kw, In kw kws -> ~ occurs_in kw content.
Proof.
  intros H kw Hin Hocc. rewrite forallb_forall in H.
  apply H in Hin. apply includes_spec in Hocc. rewrite Hocc in Hin.
  discriminate.
Qed.

Lemma classify_midjourney_and_gate_witness :
  (exists a', @categorizeArticle Reference.platform Examples.midjourney_article
              = Some a' /\ category a' = lit "ai-design-tools") /\
  @categorizeArticle Reference.platform Examples.cooking_article = None.
Proof.
  destruct (@classify_midjourney_and_gate Reference.platform Reference_AsciiCase)
    as [Hkeep Hdrop].
  split.
  - apply (Hkeep Examples.midjourney_article (lit "MidJourney")).
    + split; [|reflexivity]. unfold is_ascii.
      repeat (constructor; [reflexivity|]). constructor.
    + left. exists (lit "Concept art with "), []. reflexivity.
  - apply Hdrop. apply no_keyword_by_computation. vm_compute. reflexivity.
Defined.






(** Under [AsciiCase] the match does not depend on the letter case of the
    text: a keyword of the table written in any case in the title or the
    description makes its category match. *)
Lemma keyword_match_any_case {P : Platform} {L : AsciiCase P}
    (a : Article) (e : jsstring * CategoryData) (kw w : jsstring) :
  In e CATEGORIES -> In kw (keywords (snd e)) ->
  any_case kw w ->
  occurs_in w (title a) \/ occurs_in w (description a) ->
  matches (content_of a) e = true.
Proof.
  intros He Hkw Hw Hocc. unfold matches.
  apply some_keyword_intro with (kw := kw); [exact Hkw|].
  assert (Hlow : is_lower_ascii kw = true).
  { pose proof CATEGORIES_lower as Hall. rewrite forallb_forall in Hall.
    specialize (Hall e He). rewrite forallb_forall in Hall. now apply Hall. }
  rewrite (toLowerCase_keyword _ Hlow).
  apply includes_spec. eapply content_of_occurs; eassumption.
Qed.



(** A relevant article without a keyword of any category. *)
Example classify_fallback :
  @categorizeArticle Reference.platform Examples.plain_article
  = Some (with_category Examples.plain_article (lit "industry-news")).
Proof. vm_compute. reflexivity. Qed.

(** C10.  When [categorizeArticle] returns an article, it is its input with
    only [category] replaced, and the category is one of the six real
    identifiers, never [all] and never [favorites]. *)
Theorem classify_frame {P : Platform} (a a' : Article) :
  categorizeArticle a = Some a' ->
  id a' = id a /\ title a' = title a /\ description a' = description a /\
  link a' = link a /\ pubDate a' = pubDate a /\ source a' = source a /\
  isFavorite a' = isFavorite a /\
  In (category a') real_category_ids /\
  category a' <> lit "all" /\ category a' <> lit "favorites".
Proof.
  intros H. apply categorizeArticle_some in H as [_ ->]. cbn.
  repeat (split; [reflexivity|]).
  pose proof (assigned_category_real (content_of a)) as Hin.
  split; [exact Hin|].
  pose proof real_category_ids_not_pseudo as Hall.
  rewrite forallb_forall in Hall. apply Hall in Hin.
  apply negb_true_iff in Hin. unfold is_pseudo in Hin.
  apply orb_false_iff in Hin as [Hall' Hfav].
  split; now apply str_eqb_neq.
Qed.

Lemma classify_frame_witness :
  exists a',
    @categorizeArticle Reference.platform Examples.midjourney_article = Some a' /\
    title a' = title Examples.midjourney_article /\
    category a' <> lit "all".
Proof.
  eexists. split; [vm_compute; reflexivity|].
  assert (H : @categorizeArticle Reference.platform Examples.midjourney_article
              = Some (with_category Examples.midjourney_article
                                    (lit "ai-design-tools")))
    by (vm_compute; reflexivity).
  destruct (classify_frame _ H) as [_ [Ht [_ [_ [_ [_ [_ [_ [Hall _]]]]]]]]].
  split; [exact Ht | exact Hall].
Defined.

(* ================================================================= *)
(** ** Normalizer: the article id *)

Lemma to_int32_range (z : Z) : -2147483648 <= to_int32 z < 2147483648.
Proof.
  unfold to_int32.
  pose proof (Z.mod_pos_bound (z + 2147483648) 4294967296 eq_refl). lia.
Qed.

Lemma to_int32_id (z : Z) :
  -2147483648 <= z < 2147483648 -> to_int32 z = z.
Proof.
  intros H. unfold to_int32. rewrite Z.mod_small by lia. lia.
Qed.


Lemma to_int32_congr (a b : Z) :
  a mod 4294967296 = b mod 4294967296 -> to_int32 a = to_int32 b.
Proof.
  intros H. unfold to_int32.
  rewrite <- (Zplus_mod_idemp_l a), <- (Zplus_mod_idemp_l b), H.
  reflexivity.
Qed.

Lemma and32_same (a : Z) : and32 a a = to_int32 a.
Proof.
  unfold and32. rewrite Z.land_diag. apply to_int32_id, to_int32_range.
Qed.

Lemma to_int32_shift (z : Z) : exists k, to_int32 z = z + k * 4294967296.
Proof.
  exists (- ((z + 2147483648) / 4294967296)). unfold to_int32.
  rewrite Z.mod_eq by lia. lia.
Qed.

(** One round of the loop is the step of the polynomial hash with
    multiplier 31, reduced to a signed 32-bit integer. *)
Lemma hash_step_poly (hash : Z) (char : codeunit) :
  hash_step hash char = to_int32 (31 * hash + Z.of_N char).
Proof.
  unfold hash_step. cbv zeta. rewrite and32_same. apply to_int32_congr.
  unfold shl32. rewrite Z.shiftl_mul_pow2 by lia.
  change (2 ^ 5) with 32.
  destruct (to_int32_shift hash) as [k1 ->].
  destruct (to_int32_shift ((hash + k1 * 4294967296) * 32)) as [k2 ->].
  replace ((hash + k1 * 4294967296) * 32 + k2 * 4294967296 - hash + Z.of_N char)
    with (31 * hash + Z.of_N char + (32 * k1 + k2) * 4294967296) by ring.
  apply Z_mod_plus_full.
Qed.

Lemma hash_loop_range (url : jsstring) (hash : Z) :
  -2147483648 <= hash < 2147483648 ->
  -2147483648 <= hash_loop url hash < 2147483648.
Proof.
  revert hash. unfold hash_loop.
  induction url as [|c url IH]; intros hash H; simpl.
  - exact H.
  - apply IH. rewrite hash_step_poly. apply to_int32_range.
Qed.









(** The id of the empty string and of a one-letter link. *)
Example generateArticleId_empty : generateArticleId [] = lit "article-0".
Proof. reflexivity. Qed.

Example generateArticleId_a : generateArticleId (lit "a") = lit "article-2p".
Proof. reflexivity. Qed.

(* ================================================================= *)
(** ** Normalizer: the description *)

Lemma stripTags_from_In (in_tag : bool) (s : jsstring) (x : codeunit) :
  In x (stripTags_from in_tag s) -> In x s.
Proof.
  revert in_tag. induction s as [|c s IH]; intros in_tag; simpl; [tauto|].
  destruct in_tag.
  - destruct (cu_eqb c GT); intros H; right; eapply IH; exact H.
  - destruct (cu_eqb c LT && has_gt s).
    + intros H. right. eapply IH. exact H.
    + simpl. intros [H | H]; [now left | right; eapply IH; exact H].
Qed.

Lemma has_gt_In (s : jsstring) : has_gt s = false -> ~ In GT s.
Proof.
  unfold has_gt. intros H Hin.
  assert (Ht : existsb (cu_eqb GT) s = true).
  { apply existsb_exists. exists GT. split; [exact Hin | now apply cu_eqb_eq]. }
  congruence.
Qed.

(** No [<...>] is left after the replacement. *)
Lemma stripTags_from_no_tag (in_tag : bool) (s : jsstring) :
  forall a b c, stripTags_from in_tag s <> a ++ LT :: b ++ GT :: c.
Proof.
  revert in_tag. induction s as [|x s IH]; intros in_tag a b c; simpl.
  - destruct a; discriminate.
  - destruct in_tag.
    + destruct (cu_eqb x GT); apply IH.
    + destruct (cu_eqb x LT && has_gt s) eqn:Hopen; [apply IH|].
      intros Heq. destruct a as [|y a].
      * simpl in Heq. injection Heq as Hx Hrest.
        apply andb_false_iff in Hopen as [Hne | Hno].
        -- apply (proj2 (cu_eqb_eq x LT)) in Hx. congruence.
        -- apply has_gt_In in Hno. apply Hno.
           apply stripTags_from_In with (in_tag := false). rewrite Hrest.
           apply in_or_app. right. now left.
      * simpl in Heq. injection Heq as _ Hrest. now apply IH in Hrest.
Qed.

Lemma not_In_has_gt (s : jsstring) : ~ In GT s -> has_gt s = false.
Proof.
  intros H. unfold has_gt. destruct (existsb (cu_eqb GT) s) eqn:E; [|reflexivity].
  apply existsb_exists in E as [g [Hin Hg]]. apply cu_eqb_eq in Hg.
  subst g. contradiction.
Qed.

Lemma In_has_gt (s : jsstring) : In GT s -> has_gt s = true.
Proof.
  intros H. unfold has_gt. apply existsb_exists. exists GT.
  split; [exact H | now apply cu_eqb_eq].
Qed.

(** The first ['>'] of a text that has one. *)
Lemma first_gt_split (s : jsstring) :
  has_gt s = true -> exists body rest, s = body ++ GT :: rest /\ ~ In GT body.
Proof.
  induction s as [|c s IH]; [discriminate|].
  destruct (cu_eqb GT c) eqn:E.
  - intros _. apply cu_eqb_eq in E. subst c. exists [], s. split; auto.
  - unfold has_gt. cbn [existsb]. rewrite E. cbn [orb]. intros H.
    destruct (IH H) as [body [rest [-> Hb]]].
    exists (c :: body), rest. split; [reflexivity|].
    intros [Hc | Hin]; [|contradiction].
    subst c. rewrite (proj2 (cu_eqb_eq GT GT) eq_refl) in E. discriminate.
Qed.

Lemma stripTags_from_inside (body rest : jsstring) :
  ~ In GT body ->
  stripTags_from true (body ++ GT :: rest) = stripTags_from false rest.
Proof.
  induction body as [|c body IH]; intros H.
  - cbn [List.app stripTags_from].
    now rewrite (proj2 (cu_eqb_eq GT GT) eq_refl).
  - cbn [List.app stripTags_from].
    replace (cu_eqb c GT) with false.
    + apply IH. intros Hin. apply H. now right.
    + symmetry. destruct (cu_eqb c GT) eqn:E; [|reflexivity].
      apply cu_eqb_eq in E. exfalso. apply H. now left.
Qed.

Lemma stripTags_from_tag (body rest : jsstring) :
  ~ In GT body ->
  stripTags_from false (LT :: body ++ GT :: rest) = stripTags_from false rest.
Proof.
  intros H. cbn [stripTags_from].
  rewrite (proj2 (cu_eqb_eq LT LT) eq_refl).
  rewrite In_has_gt by (apply in_or_app; right; now left).
  cbn [andb]. now apply stripTags_from_inside.
Qed.

Lemma stripTags_from_unit (c : codeunit) (rest : jsstring) :
  c <> LT \/ ~ In GT rest ->
  stripTags_from false (c :: rest) = c :: stripTags_from false rest.
Proof.
  intros H. cbn [stripTags_from].
  replace (cu_eqb c LT && has_gt rest) with false; [reflexivity|].
  symmetry. apply andb_false_iff. destruct H as [H | H].
  - left. destruct (cu_eqb c LT) eqn:E; [|reflexivity].
    apply cu_eqb_eq in E. contradiction.
  - right. now apply not_In_has_gt.
Qed.

(** The code computes the stripped text, and nothing else is one. *)
Lemma Stripped_stripTags (html text : jsstring) :
  Stripped html text <-> text = stripTags html.
Proof.
  unfold stripTags. split.
  - induction 1 as [|body rest out Hb _ IH|c rest out Hc _ IH].
    + reflexivity.
    + now rewrite stripTags_from_tag.
    + rewrite stripTags_from_unit by exact Hc. now f_equal.
  - intros ->.
    assert (Hlen : forall n s, (List.length s <= n)%nat ->
                     Stripped s (stripTags_from false s)).
    { intros n. induction n as [|n IH]; intros s Hs.
      - destruct s; [constructor | simpl in Hs; lia].
      - destruct s as [|c s]; [constructor|].
        destruct (cu_eqb c LT && has_gt s) eqn:E.
        + apply andb_true_iff in E as [Hc Hgt].
          apply cu_eqb_eq in Hc. subst c.
          destruct (first_gt_split _ Hgt) as [body [rest [-> Hb]]].
          rewrite stripTags_from_tag by exact Hb.
          apply Stripped_tag; [exact Hb|]. apply IH.
          simpl in Hs. rewrite length_app in Hs. simpl in Hs. lia.
        + assert (Hc : c <> LT \/ ~ In GT s).
          { apply andb_false_iff in E as [E | E].
            - left. intros ->.
              rewrite (proj2 (cu_eqb_eq LT LT) eq_refl) in E. discriminate.
            - right. now apply has_gt_In. }
          rewrite stripTags_from_unit by exact Hc.
          apply Stripped_unit; [exact Hc|]. apply IH. simpl in Hs. lia. }
    now apply (Hlen (List.length html)).
Qed.

(** C9.  The normalized description is the raw description (the content
    when there is no description) with its markup removed (every ['<'] up
    to the first ['>'] after it dropped, all other text kept) and its
    entities decoded, cut to its first 200 units followed by [...] when the
    decoded text is longer than 200 units, and the placeholder when the
    decoded text is empty; it is never longer than 203 units. *)
Theorem cleanDescription_shape {P : Platform} (html : jsstring) :
  (exists text,
     Stripped html text /\
     (forall text', Stripped html text' -> text' = text) /\
     (forall a b c, text <> a ++ LT :: b ++ GT :: c) /\
     let decoded := decodeEntities text in
     ((200 < List.length decoded)%nat ->
        cleanDescription html = firstn 200 decoded ++ lit "..." /\
        List.length (cleanDescription html) = 203%nat) /\
     ((0 < List.length decoded <= 200)%nat ->
        cleanDescription html = decoded) /\
     (decoded = [] ->
        cleanDescription html = lit "No description available.")) /\
  (List.length (cleanDescription html) <= 203)%nat /\
  (~ In LT html -> Stripped html html) /\
  (forall a rest, html = a ++ LT :: rest -> ~ In LT a -> ~ In GT rest ->
     Stripped html html) /\
  (forall a body rest text,
     html = a ++ LT :: body ++ GT :: rest -> ~ In LT a -> ~ In GT body ->
     Stripped rest text -> Stripped html (a ++ text)) /\
  (forall (now : Z) (r : RawArticle),
     description (normalizeArticle now r) =
     cleanDescription
       (or_else (raw_description r) (or_else (raw_content r) []))).
Proof.
  assert (Hkeep : forall a s o, ~ In LT a -> Stripped s o ->
                    Stripped (a ++ s) (a ++ o)).
  { intros a s o Ha Hs. induction a as [|c a IH]; [exact Hs|].
    cbn [List.app]. apply Stripped_unit.
    - left. intros ->. apply Ha. now left.
    - apply IH. intros Hin. apply Ha. now right. }
  assert (Hsame : forall s, ~ In GT s -> Stripped s s).
  { intros s. induction s as [|c s IH]; intros Hs; [constructor|].
    apply Stripped_unit.
    - right. intros Hin. apply Hs. now right.
    - apply IH. intros Hin. apply Hs. now right. }
  split; [|split; [|split; [|split; [|split]]]].
  - exists (stripTags html). split; [now apply Stripped_stripTags|].
    split; [intros text' H; now apply Stripped_stripTags in H|].
    split; [apply stripTags_from_no_tag|].
    intros decoded. unfold cleanDescription. fold decoded.
    unfold maxLength, substring0. split; [|split].
    + intros H. apply Nat.ltb_lt in H as Hb. rewrite Hb. split; [reflexivity|].
      rewrite length_app, length_firstn.
      change (List.length (lit "...")) with 3%nat. lia.
    + intros [Hpos Hle].
      replace (200 <? List.length decoded)%nat with false
        by (symmetry; apply Nat.ltb_ge; lia).
      destruct decoded; [simpl in Hpos; lia | reflexivity].
    + intros ->. reflexivity.
  - unfold cleanDescription, maxLength, substring0. cbv zeta.
    set (decoded := decodeEntities (stripTags html)).
    destruct (200 <? List.length decoded)%nat eqn:Hb.
    + apply Nat.ltb_lt in Hb. rewrite length_app, length_firstn.
      change (List.length (lit "...")) with 3%nat. lia.
    + apply Nat.ltb_ge in Hb. destruct decoded as [|c d].
      * cbn. lia.
      * cbn [or_else]. lia.
  - intros Hno. rewrite <- (app_nil_r html) at 1.
    rewrite <- (app_nil_r html) at 2. apply Hkeep; [exact Hno | constructor].
  - intros a rest -> Ha Hrest. apply Hkeep; [exact Ha|].
    apply Stripped_unit; [now right | now apply Hsame].
  - intros a body rest text -> Ha Hbody Hrest. apply Hkeep; [exact Ha|].
    now apply Stripped_tag.
  - reflexivity.
Qed.

Lemma cleanDescription_shape_witness :
  @cleanDescription Reference.platform (lit "<p>Hello &amp; <b>bye</b></p>")
  = lit "Hello & bye" /\
  Stripped (lit "a < b") (lit "a < b") /\
  Stripped (lit "one<br/>two") (lit "onetwo").
Proof.
  split; [|split].
  - destruct (@cleanDescription_shape Reference.platform
                (lit "<p>Hello &amp; <b>bye</b></p>"))
      as [[text [Hs [Huniq [_ [_ [Hshort _]]]]]] _].
    assert (Htext : text = lit "Hello &amp; bye").
    { symmetry. apply Huniq. apply Stripped_stripTags. reflexivity. }
    subst text. rewrite Hshort; [reflexivity|].
    vm_compute. split; repeat constructor.
  - destruct (@cleanDescription_shape Reference.platform (lit "a < b"))
      as [_ [_ [_ [Hlone _]]]].
    apply (Hlone (lit "a ") (lit " b")); [reflexivity| |];
      vm_compute; intuition discriminate.
  - destruct (@cleanDescription_shape Reference.platform (lit "one<br/>two"))
      as [_ [_ [_ [_ [Htag _]]]]].
    apply (Htag (lit "one") (lit "br/") (lit "two") (lit "two"));
      [reflexivity| | |].
    + vm_compute. intuition discriminate.
    + vm_compute. intuition discriminate.
    + apply Stripped_stripTags. reflexivity.
Defined.

(** A comparison sign that closes no tag stays; an empty result is replaced. *)
Example cleanDescription_lone_lt :
  @cleanDescription Reference.platform (lit "a < b") = lit "a < b".
Proof. reflexivity. Qed.

Example cleanDescription_only_markup :
  @cleanDescription Reference.platform (lit "<img src='x.png'>")
  = lit "No description available.".
Proof. reflexivity. Qed.

(* ================================================================= *)
(** ** Storage: cache and favorites *)

(** C5.  After a successful [cacheArticles(A)] the stored entry expires
    3 600 000 ms after the time of the write; [getCachedArticles] before
    that instant returns [A]; at or after it, it returns [null] and removes
    the entry, so that a later read finds nothing. *)
Theorem cache_roundtrip_expiry
    (t_stamp t_expires : Z) (A : list Article) (st : LocalStorage) :
  let st1 := snd (cacheArticles SetOk t_stamp t_expires A st) in
  fst (cacheArticles SetOk t_stamp t_expires A st) = true /\
  (exists c, ls_cache st1 = Some (Parsed c) /\ articles c = A /\
             expiresAt c = t_expires + 3600000) /\
  (forall now, now < t_expires + 3600000 ->
     getCachedArticles now st1 = (Some A, st1)) /\
  (forall now, t_expires + 3600000 <= now ->
     let st2 := snd (getCachedArticles now st1) in
     fst (getCachedArticles now st1) = None /\
     ls_cache st2 = None /\
     forall now', getCachedArticles now' st2 = (None, st2)).
Proof.
  cbn zeta. split; [reflexivity|]. split; [|split].
  - eexists. split; [reflexivity|]. split; reflexivity.
  - intros now Hnow. unfold getCachedArticles. cbn.
    unfold CACHE_DURATION.
    Zltb_true.
    reflexivity.
  - intros now Hnow. unfold getCachedArticles. cbn.
    unfold CACHE_DURATION.
    Zltb_false.
    cbn. repeat split.
Qed.

Lemma cache_roundtrip_expiry_witness :
  let A := [Examples.midjourney_article] in
  let st1 := snd (cacheArticles SetOk 1000 1001 A empty_storage) in
  getCachedArticles 3601000 st1 = (Some A, st1) /\
  fst (getCachedArticles 3601001 st1) = None.
Proof.
  cbn zeta.
  destruct (cache_roundtrip_expiry 1000 1001
              [Examples.midjourney_article] empty_storage)
    as [_ [_ [Hfresh Hstale]]].
  split.
  - apply Hfresh. lia.
  - apply Hstale. lia.
Defined.

Lemma count_id_app (x : jsstring) (l1 l2 : list FavoriteRecord) :
  count_id x (l1 ++ l2) = (count_id x l1 + count_id x l2)%nat.
Proof. unfold count_id. now rewrite filter_app, length_app. Qed.

Lemma count_id_absent (x : jsstring) (l : list FavoriteRecord) :
  existsb (fun f => str_eqb (fav_id f) x) l = false -> count_id x l = 0%nat.
Proof.
  unfold count_id. induction l as [|f l IH]; simpl; [reflexivity|].
  destruct (str_eqb (fav_id f) x); simpl; [discriminate | exact IH].
Qed.

Lemma absent_not_In (x : jsstring) (l : list FavoriteRecord) :
  existsb (fun f => str_eqb (fav_id f) x) l = false ->
  ~ In x (List.map fav_id l).
Proof.
  induction l as [|f l IH]; simpl; [tauto|].
  destruct (str_eqb (fav_id f) x) eqn:E; simpl; [discriminate|].
  intros H [Hx | Hin]; [|now apply IH].
  apply str_eqb_neq in E. contradiction.
Qed.

Lemma not_In_absent (x : jsstring) (l : list FavoriteRecord) :
  ~ In x (List.map fav_id l) ->
  existsb (fun f => str_eqb (fav_id f) x) l = false.
Proof.
  induction l as [|f l IH]; simpl; [reflexivity|].
  intros H. apply orb_false_iff. split.
  - apply str_eqb_neq. tauto.
  - apply IH. tauto.
Qed.

Lemma count_id_present (x : jsstring) (l : list FavoriteRecord) :
  NoDup (List.map fav_id l) ->
  existsb (fun f => str_eqb (fav_id f) x) l = true -> count_id x l = 1%nat.
Proof.
  unfold count_id. induction l as [|f l IH]; simpl; [discriminate|].
  intros Hnd. inversion Hnd as [|y ys Hnotin Hnd']; subst.
  destruct (str_eqb (fav_id f) x) eqn:E; simpl.
  - intros _. apply str_eqb_eq in E. subst x.
    apply not_In_absent in Hnotin. apply count_id_absent in Hnotin.
    unfold count_id in Hnotin. now rewrite Hnotin.
  - intros H. now apply IH.
Qed.

Lemma NoDup_map_filter {A B : Type} (f : A -> B) (p : A -> bool) (l : list A) :
  NoDup (List.map f l) -> NoDup (List.map f (List.filter p l)).
Proof.
  induction l as [|a l IH]; simpl; [auto|].
  intros H. inversion H as [|y ys Hnotin Hnd]; subst.
  destruct (p a); simpl; [|auto]. constructor; [|auto].
  intros Hin. apply Hnotin. apply in_map_iff in Hin as [a' [Ha' Hin]].
  apply filter_In in Hin as [Hin _]. apply in_map_iff. now exists a'.
Qed.

Lemma NoDup_snoc {A : Type} (l : list A) (x : A) :
  NoDup l -> ~ In x l -> NoDup (l ++ [x]).
Proof.
  induction l as [|a l IH]; simpl; intros Hnd Hx.
  - constructor; [tauto | constructor].
  - inversion Hnd as [|y ys Hnotin Hnd']; subst. constructor.
    + intros Hin. apply in_app_or in Hin as [Hin | [Hin | []]]; [tauto|].
      subst. tauto.
    + apply IH; tauto.
Qed.

Section FavoritesFacts.
Context {P : Platform}.

Lemma saveFavorite_unique (w : SetItem) (now : Z) (x : jsstring)
    (st : LocalStorage) :
  fav_unique st -> fav_unique (snd (saveFavorite w now x st)).
Proof.
  unfold fav_unique, saveFavorite. intros H.
  destruct (existsb _ (getFavorites st)) eqn:E; simpl; [exact H|].
  destruct w; simpl; try exact H.
  unfold getFavorites at 1. simpl. rewrite map_app. simpl.
  apply NoDup_snoc; [exact H | now apply absent_not_In].
Qed.

Lemma removeFavorite_unique (w : SetItem) (x : jsstring) (st : LocalStorage) :
  fav_unique st -> fav_unique (snd (removeFavorite w x st)).
Proof.
  unfold fav_unique, removeFavorite. intros H.
  destruct w; simpl; try exact H.
  unfold getFavorites at 1. simpl. now apply NoDup_map_filter.
Qed.

Lemma reachable_unique (st : LocalStorage) : reachable st -> fav_unique st.
Proof.
  induction 1 as [|w now x st _ IH|w x st _ IH|st _ IH|w t1 t2 arts st _ IH
                  |now st _ IH|st _ IH].
  - constructor.
  - now apply saveFavorite_unique.
  - now apply removeFavorite_unique.
  - constructor.
  - destruct w; exact IH.
  - unfold getCachedArticles.
    destruct (ls_cache st) as [[c|]|]; try exact IH.
    destruct (now <? expiresAt c); exact IH.
  - exact IH.
Qed.

End FavoritesFacts.

Lemma count_id_removed (x : jsstring) (l : list FavoriteRecord) :
  count_id x (List.filter (fun f => negb (str_eqb (fav_id f) x)) l) = 0%nat.
Proof.
  unfold count_id. induction l as [|f l IH]; simpl; [reflexivity|].
  destruct (str_eqb (fav_id f) x) eqn:E; simpl; [exact IH|].
  now rewrite E.
Qed.

(** C6.  The store never holds two records with the same id.  When the
    writes succeed, a second add of [x] changes nothing and reports
    [false], a following remove reports [true] and leaves no record with id
    [x], and after the adds there is exactly one record with id [x]
    (on every store whose ids are unique, as they are in every store the
    application brings about). *)
Theorem favorites_add_idempotent {P : Platform} :
  (forall st : LocalStorage, reachable st -> fav_unique st) /\
  (forall (st : LocalStorage) (x : jsstring) (t1 t2 : Z),
     let s1 := snd (saveFavorite SetOk t1 x st) in
     let r2 := saveFavorite SetOk t2 x s1 in
     let r3 := removeFavorite SetOk x (snd r2) in
     r2 = (false, s1) /\
     fst r3 = true /\
     count_id x (getFavorites (snd r3)) = 0%nat /\
     (fav_unique st ->
      count_id x (getFavorites s1) = 1%nat /\ fav_unique (snd r3))).
Proof.
  split; [exact reachable_unique|].
  intros st x t1 t2. cbn zeta.
  set (s1 := snd (saveFavorite SetOk t1 x st)).
  assert (Hin1 : existsb (fun f => str_eqb (fav_id f) x) (getFavorites s1) = true).
  { unfold s1, saveFavorite.
    destruct (existsb _ (getFavorites st)) eqn:E; simpl; [exact E|].
    unfold getFavorites at 1. simpl. rewrite existsb_app. simpl.
    now rewrite str_eqb_refl, orb_true_r. }
  assert (Hsecond : saveFavorite SetOk t2 x s1 = (false, s1)).
  { unfold saveFavorite at 1. now rewrite Hin1. }
  split; [exact Hsecond|].
  rewrite Hsecond. cbn [snd]. split; [reflexivity|]. split.
  - unfold removeFavorite. cbn [snd]. unfold getFavorites at 1. simpl.
    apply count_id_removed.
  - intros Hu.
    assert (Hu1 : fav_unique s1) by now apply saveFavorite_unique.
    split; [now apply count_id_present | now apply removeFavorite_unique].
Qed.

Lemma favorites_add_idempotent_witness :
  let x := lit "article-2p" in
  let s1 := snd (@saveFavorite Reference.platform SetOk 0 x empty_storage) in
  count_id x (getFavorites s1) = 1%nat /\
  @saveFavorite Reference.platform SetOk 5 x s1 = (false, s1) /\
  getFavorites (snd (removeFavorite SetOk x s1)) = [].
Proof.
  cbn zeta.
  destruct (@favorites_add_idempotent Reference.platform) as [Hinv Hadd].
  destruct (Hadd empty_storage (lit "article-2p") 0 5)
    as [Hsecond [_ [_ Hone]]].
  split; [|split; [exact Hsecond | reflexivity]].
  apply Hone. apply Hinv. constructor.
Defined.

(** A write that fails leaves the store as it was and reports [false]. *)
Example saveFavorite_quota :
  @saveFavorite Reference.platform QuotaExceededError 0 (lit "article-2p")
                empty_storage
  = (false, empty_storage).
Proof. reflexivity. Qed.

(* ================================================================= *)
(** ** Pipeline: deduplication *)

Lemma findIndex_found {A : Type} (p : A -> bool) (pre rest : list A) :
  existsb p pre = true ->
  findIndex p (pre ++ rest) = findIndex p pre /\
  0 <= findIndex p pre < Z.of_nat (List.length pre).
Proof.
  induction pre as [|x pre IH]; simpl; [discriminate|].
  destruct (p x) eqn:Hx; simpl.
  - intros _. split; [reflexivity | lia].
  - intros H. destruct (IH H) as [Heq Hb]. rewrite Heq.
    Zltb_false.
    split; [reflexivity | lia].
Qed.

Lemma findIndex_first {A : Type} (p : A -> bool) (pre : list A) (a : A)
    (rest : list A) :
  existsb p pre = false -> p a = true ->
  findIndex p (pre ++ a :: rest) = Z.of_nat (List.length pre).
Proof.
  induction pre as [|x pre IH]; simpl.
  - intros _ ->. reflexivity.
  - destruct (p x) eqn:Hx; simpl; [discriminate|].
    intros H Ha. rewrite (IH H Ha).
    Zltb_false.
    lia.
Qed.

(** The index test of the filter keeps exactly the first occurrences. *)
Lemma dedupe_from (pre rest : list Article) :
  List.map fst
    (List.filter
       (fun xi =>
          Z.of_nat (snd xi) =?
          findIndex (fun a => str_eqb (link a) (link (fst xi))) (pre ++ rest))
       (List.combine rest (List.seq (List.length pre) (List.length rest))))
  = first_occurrences pre rest.
Proof.
  revert pre. induction rest as [|a rest IH]; intros pre; [reflexivity|].
  cbn [List.length List.seq List.combine List.filter fst snd first_occurrences].
  specialize (IH (pre ++ [a])).
  rewrite <- app_assoc, length_app in IH. cbn [List.app List.length] in IH.
  rewrite Nat.add_1_r in IH.
  destruct (existsb (fun b => str_eqb (link b) (link a)) pre) eqn:E.
  - destruct (findIndex_found _ pre (a :: rest) E) as [-> Hb].
    replace (Z.of_nat (List.length pre)
             =? findIndex (fun a0 => str_eqb (link a0) (link a)) pre)
      with false by (symmetry; apply Z.eqb_neq; lia).
    exact IH.
  - rewrite (findIndex_first _ pre a rest E (str_eqb_refl _)).
    rewrite Z.eqb_refl. cbn [List.map fst]. now rewrite IH.
Qed.

Lemma dedupe_first_occurrences (arts : list Article) :
  dedupe arts = first_occurrences [] arts.
Proof. unfold dedupe, filter_indexed. apply (dedupe_from [] arts). Qed.

Lemma link_seen_spec (pre : list Article) (a : Article) :
  existsb (fun b => str_eqb (link b) (link a)) pre = true <->
  In (link a) (List.map link pre).
Proof.
  rewrite existsb_exists, in_map_iff. split.
  - intros [b [Hin Hb]]. apply str_eqb_eq in Hb. now exists b.
  - intros [b [Hb Hin]]. exists b. split; [exact Hin | now apply str_eqb_eq].
Qed.

Lemma link_unseen_spec (pre : list Article) (a : Article) :
  existsb (fun b => str_eqb (link b) (link a)) pre = false <->
  ~ In (link a) (List.map link pre).
Proof.
  rewrite <- link_seen_spec.
  destruct (existsb _ pre); split; try congruence; tauto.
Qed.

(** Every kept article is the first of its link. *)
Lemma first_occurrences_first (pre rest : list Article) (d : Article) :
  In d (first_occurrences pre rest) ->
  exists r1 r2, rest = r1 ++ d :: r2 /\
                forall b, In b (pre ++ r1) -> link b <> link d.
Proof.
  revert pre. induction rest as [|a rest IH]; intros pre; simpl; [tauto|].
  assert (Hlater : In d (first_occurrences (pre ++ [a]) rest) ->
            exists r1 r2, a :: rest = r1 ++ d :: r2 /\
                          forall b, In b (pre ++ r1) -> link b <> link d).
  { intros Hin. destruct (IH _ Hin) as [r1 [r2 [-> Hpre]]].
    exists (a :: r1), r2. split; [reflexivity|].
    intros b Hb. apply Hpre. rewrite <- app_assoc. exact Hb. }
  destruct (existsb _ pre) eqn:E; [exact Hlater|].
  intros [<- | Hin]; [|now apply Hlater].
  exists [], rest. split; [reflexivity|]. rewrite app_nil_r.
  intros b Hb Heq. apply link_unseen_spec in E. apply E.
  rewrite <- Heq. now apply in_map.
Qed.

(** The kept links are pairwise distinct and new with respect to [pre]. *)
Lemma first_occurrences_NoDup (pre rest : list Article) :
  NoDup (List.map link (first_occurrences pre rest)) /\
  forall d, In d (first_occurrences pre rest) ->
            ~ In (link d) (List.map link pre).
Proof.
  revert pre. induction rest as [|a rest IH]; intros pre; simpl.
  - split; [constructor | tauto].
  - destruct (IH (pre ++ [a])) as [Hnd Hnew].
    assert (Hnew' : forall d, In d (first_occurrences (pre ++ [a]) rest) ->
                      ~ In (link d) (List.map link pre) /\ link d <> link a).
    { intros d Hd. specialize (Hnew d Hd). rewrite map_app, in_app_iff in Hnew.
      simpl in Hnew. split; [tauto|]. intros Heq. apply Hnew. right. now left. }
    destruct (existsb _ pre) eqn:E.
    + split; [exact Hnd|]. intros d Hd. now apply Hnew'.
    + split.
      * simpl. constructor; [|exact Hnd]. intros Hin.
        apply in_map_iff in Hin as [d [Heq Hd]].
        now apply (Hnew' d Hd).
      * intros d [<- | Hd]; [now apply link_unseen_spec | now apply Hnew'].
Qed.

(** Every link of the input is represented. *)
Lemma first_occurrences_complete (pre rest : list Article) (a : Article) :
  In a rest ->
  In (link a) (List.map link pre) \/
  In (link a) (List.map link (first_occurrences pre rest)).
Proof.
  revert pre. induction rest as [|x rest IH]; intros pre; simpl; [tauto|].
  intros [-> | Hin].
  - destruct (existsb _ pre) eqn:E.
    + left. now apply link_seen_spec.
    + right. simpl. now left.
  - destruct (IH (pre ++ [x]) Hin) as [Hpre | Hkept].
    + rewrite map_app, in_app_iff in Hpre. simpl in Hpre.
      destruct Hpre as [Hpre | [Heq | []]]; [now left|].
      destruct (existsb _ pre) eqn:E.
      * left. rewrite <- Heq. now apply link_seen_spec.
      * right. simpl. now left.
    + right. destruct (existsb _ pre); [exact Hkept | simpl; now right].
Qed.

Lemma first_occurrences_incl (pre rest : list Article) (d : Article) :
  In d (first_occurrences pre rest) -> In d rest.
Proof.
  intros H. destruct (first_occurrences_first _ _ _ H) as [r1 [r2 [-> _]]].
  apply in_or_app. right. now left.
Qed.

(** As many articles are kept as there are distinct links. *)
Lemma dedupe_length (arts : list Article) :
  List.length (dedupe arts) = distinct_links arts.
Proof.
  unfold distinct_links. rewrite dedupe_first_occurrences.
  rewrite <- (length_map link (first_occurrences [] arts)).
  apply Permutation_length. apply NoDup_Permutation.
  - apply first_occurrences_NoDup.
  - apply NoDup_nodup.
  - intros l. rewrite nodup_In. split.
    + intros Hin. apply in_map_iff in Hin as [d [<- Hd]].
      apply in_map. eapply first_occurrences_incl. exact Hd.
    + intros Hin. apply in_map_iff in Hin as [a [<- Ha]].
      destruct (first_occurrences_complete [] arts a Ha) as [[] | H].
      exact H.
Qed.

(* ================================================================= *)
(** ** Pipeline: the sort *)

Section SortFacts.
Variable A : Type.
Variable comparefn : A -> A -> option Z.

Lemma sort_insert_perm (x : A) (l : list A) :
  Permutation (sort_insert comparefn x l) (x :: l).
Proof.
  induction l as [|y l IH]; simpl; [reflexivity|].
  destruct (cmp_positive (comparefn x y)); [|reflexivity].
  rewrite IH. apply perm_swap.
Qed.

Lemma Array_sort_perm (l : list A) : Permutation (Array_sort comparefn l) l.
Proof.
  induction l as [|x l IH]; simpl; [reflexivity|].
  rewrite sort_insert_perm. now constructor.
Qed.

(** The comparator is the difference of two keys on the [valid] elements. *)
Variable key : A -> Z.
Variable valid : A -> Prop.
Hypothesis comparefn_key :
  forall a b, valid a -> valid b -> comparefn a b = Some (key b - key a).

Lemma sort_insert_sorted (x : A) (l : list A) :
  valid x -> Forall valid l ->
  StronglySorted (descending key) l ->
  StronglySorted (descending key) (sort_insert comparefn x l).
Proof.
  intros Hx Hl Hs. induction Hs as [|y l Hs IH Hy]; simpl.
  - repeat constructor.
  - inversion Hl as [|y' l' Hvy Hvl]; subst.
    rewrite (comparefn_key Hx Hvy). simpl.
    destruct (0 <? key y - key x) eqn:Hc.
    + apply Z.ltb_lt in Hc. constructor; [now apply IH|].
      rewrite (sort_insert_perm x l). constructor; [|exact Hy].
      unfold descending. lia.
    + apply Z.ltb_ge in Hc. constructor.
      * now constructor.
      * constructor; [unfold descending; lia|].
        eapply Forall_impl; [|exact Hy]. unfold descending. intros z Hz. lia.
Qed.

Lemma Array_sort_valid (l : list A) :
  Forall valid l -> Forall valid (Array_sort comparefn l).
Proof.
  intros H. rewrite Forall_forall in *. intros x Hx. apply H.
  eapply Permutation_in; [apply Array_sort_perm | exact Hx].
Qed.

Lemma Array_sort_sorted (l : list A) :
  Forall valid l -> StronglySorted (descending key) (Array_sort comparefn l).
Proof.
  induction l as [|x l IH]; simpl; intros H; [constructor|].
  inversion H as [|x' l' Hx Hl]; subst.
  apply sort_insert_sorted; auto using Array_sort_valid.
Qed.

Lemma sort_insert_stable (x : A) (l : list A) (k : Z) :
  valid x -> Forall valid l ->
  List.filter (fun a => key a =? k) (sort_insert comparefn x l) =
  List.filter (fun a => key a =? k) (x :: l).
Proof.
  intros Hx Hl. induction Hl as [|y l Hy Hl IH]; [reflexivity|].
  cbn [sort_insert]. rewrite (comparefn_key Hx Hy). simpl cmp_positive.
  destruct (0 <? key y - key x) eqn:Hc; [|reflexivity].
  apply Z.ltb_lt in Hc. cbn [List.filter] in *. rewrite IH.
  destruct (key x =? k) eqn:Ex; [|reflexivity].
  apply Z.eqb_eq in Ex.
  replace (key y =? k) with false by (symmetry; apply Z.eqb_neq; lia).
  reflexivity.
Qed.

(** Elements with equal keys keep their relative order. *)
Lemma Array_sort_stable (l : list A) (k : Z) :
  Forall valid l ->
  List.filter (fun a => key a =? k) (Array_sort comparefn l) =
  List.filter (fun a => key a =? k) l.
Proof.
  induction l as [|x l IH]; intros H; [reflexivity|].
  inversion H as [|x' l' Hx Hl]; subst. cbn [Array_sort].
  rewrite sort_insert_stable by auto using Array_sort_valid.
  cbn [List.filter]. now rewrite IH.
Qed.

End SortFacts.

Lemma byDateDesc_key {P : Platform} (a b : Article) :
  valid_date a -> valid_date b ->
  byDateDesc a b = Some (date_key b - date_key a).
Proof.
  intros [ta Ha] [tb Hb]. unfold byDateDesc, date_key. now rewrite Ha, Hb.
Qed.

(* ================================================================= *)
(** ** Pipeline: the processing chain *)

Lemma filter_non_null_In {A B : Type} (f : A -> option B) (l : list A) (o : B) :
  In o (filter_non_null (List.map f l)) <-> exists d, In d l /\ f d = Some o.
Proof.
  induction l as [|a l IH]; simpl.
  - split; [tauto | intros [d [[] _]]].
  - destruct (f a) as [b|] eqn:Ha; simpl; rewrite IH; split.
    + intros [<- | [d [Hd Hf]]]; [exists a; tauto | exists d; tauto].
    + intros [d [[<- | Hd] Hf]]; [left; congruence | right; now exists d].
    + intros [d [Hd Hf]]. exists d; tauto.
    + intros [d [[<- | Hd] Hf]]; [congruence | now exists d].
Qed.

Lemma filter_non_null_length {A B : Type} (f : A -> option B) (l : list A) :
  (List.length (filter_non_null (List.map f l)) <= List.length l)%nat.
Proof.
  induction l as [|a l IH]; simpl; [lia|].
  destruct (f a); simpl; lia.
Qed.

Lemma filter_non_null_all {A B : Type} (f : A -> option B) (l : list A) :
  (forall d, In d l -> f d <> None) ->
  List.length (filter_non_null (List.map f l)) = List.length l.
Proof.
  induction l as [|a l IH]; simpl; intros H; [reflexivity|].
  destruct (f a) eqn:Ha.
  - simpl. f_equal. apply IH. intros d Hd. apply H. now right.
  - exfalso. apply (H a); [now left | exact Ha].
Qed.

Section PipelineFacts.
Context {P : Platform}.

Lemma categorizeArticle_link (d o : Article) :
  categorizeArticle d = Some o -> link o = link d.
Proof. intros H. apply categorizeArticle_some in H as [_ ->]. reflexivity. Qed.

Lemma categorized_NoDup (ds : list Article) :
  NoDup (List.map link ds) ->
  NoDup (List.map link (filter_non_null (List.map categorizeArticle ds))).
Proof.
  induction ds as [|d ds IH]; simpl; intros H; [constructor|].
  inversion H as [|x xs Hnotin Hnd]; subst.
  destruct (categorizeArticle d) as [o|] eqn:Hd; simpl; [|auto].
  constructor; [|auto]. intros Hin. apply Hnotin.
  apply in_map_iff in Hin as [o' [Heq Ho']].
  apply filter_non_null_In in Ho' as [d' [Hd' Hc]].
  apply categorizeArticle_link in Hd, Hc. apply in_map_iff. exists d'.
  split; [congruence | exact Hd'].
Qed.

Lemma processArticles_perm (now : nat -> Z) (raws : list RawArticle) :
  Permutation (processArticles now raws)
    (filter_non_null
       (List.map categorizeArticle (dedupe (normalizeAll now raws)))).
Proof. unfold processArticles. apply Array_sort_perm. Qed.

End PipelineFacts.

(** C4, as the code has it.  The deduplication step keeps, of the
    normalized items, exactly the first one of each distinct link, in
    encounter order: as many as there are distinct links.  The processed
    output holds at most one article for each link, the categorized first
    item of that link, and only when that item is AI-related; it has as many
    entries as there are distinct links when every kept item is
    AI-related. *)
Theorem dedupe_keeps_first {P : Platform} (now : nat -> Z)
    (raws : list RawArticle) :
  let ns := normalizeAll now raws in
  let ds := dedupe ns in
  let out := processArticles now raws in
  NoDup (List.map link ds) /\
  List.length ds = distinct_links ns /\
  (forall d, In d ds ->
     exists pre post, ns = pre ++ d :: post /\
                      forall b, In b pre -> link b <> link d) /\
  NoDup (List.map link out) /\
  (List.length out <= distinct_links ns)%nat /\
  (forall o, In o out <->
     exists d, In d ds /\ categorizeArticle d = Some o) /\
  ((forall d, In d ds -> isAIRelated d = true) ->
   List.length out = distinct_links ns).
Proof.
  cbn zeta.
  set (ns := normalizeAll now raws).
  pose proof (processArticles_perm now raws) as Hperm. fold ns in Hperm.
  pose proof (first_occurrences_NoDup [] ns) as [Hnd _].
  rewrite <- dedupe_first_occurrences in Hnd.
  split; [exact Hnd|]. split; [apply dedupe_length|]. split; [|split; [|split; [|split]]].
  - intros d Hd. rewrite dedupe_first_occurrences in Hd.
    destruct (first_occurrences_first _ _ _ Hd) as [r1 [r2 [Heq Hpre]]].
    now exists r1, r2.
  - eapply Permutation_NoDup.
    + apply Permutation_map. symmetry. exact Hperm.
    + now apply categorized_NoDup.
  - rewrite (Permutation_length Hperm), <- dedupe_length.
    apply filter_non_null_length.
  - intros o. rewrite <- filter_non_null_In. split; intros H.
    + eapply Permutation_in; [exact Hperm | exact H].
    + eapply Permutation_in; [symmetry; exact Hperm | exact H].
  - intros Hall. rewrite (Permutation_length Hperm), <- dedupe_length.
    apply filter_non_null_all. intros d Hd Hnone.
    rewrite (categorizeArticle_relevant _ (Hall d Hd)) in Hnone. discriminate.
Qed.

Lemma dedupe_keeps_first_witness :
  let raws := [Examples.raw_first; Examples.raw_second] in
  List.length (@processArticles Reference.platform (fun _ => Examples.T) raws)
  = 1%nat.
Proof.
  cbn zeta.
  destruct (@dedupe_keeps_first Reference.platform (fun _ => Examples.T)
              [Examples.raw_first; Examples.raw_second])
    as [_ [_ [_ [_ [_ [_ Hall]]]]]].
  rewrite Hall; [vm_compute; reflexivity|].
  intros d Hd. vm_compute in Hd. destruct Hd as [<- | []].
  vm_compute. reflexivity.
Defined.

(** Three raw items with two distinct links, the second link on an item
    that is not about AI: one entry comes out, not two. *)
Lemma dedupe_exactly_M_counterexample :
  let raws := [Examples.raw_first; Examples.raw_second; Examples.raw_cooking] in
  let ns := @normalizeAll Reference.platform (fun _ => Examples.T) raws in
  let out := @processArticles Reference.platform (fun _ => Examples.T) raws in
  distinct_links ns = 2%nat /\ List.length out = 1%nat /\
  List.length out <> distinct_links ns.
Proof. vm_compute. repeat split. discriminate. Qed.

(** C7, as the code has it.  When every article of the final collection has
    a date that parses, the collection is ordered by date, newest first, and
    articles with equal dates keep the order they had before the sort;
    three articles dated one, three and two days before an instant come out
    in the order one, two, three days.  (An invalid date makes the
    comparator yield NaN, which the sort takes for a tie.) *)
Theorem sorted_newest_first {P : Platform} :
  (forall (now : nat -> Z) (raws : list RawArticle),
     let before :=
       filter_non_null
         (List.map categorizeArticle (dedupe (normalizeAll now raws))) in
     let out := processArticles now raws in
     Permutation out before /\
     (Forall valid_date out ->
      StronglySorted (descending date_key) out /\
      forall t, List.filter (fun a => date_key a =? t) out =
                List.filter (fun a => date_key a =? t) before)) /\
  (forall (T : Z) (a b c : Article),
     Date_parse (pubDate a) = Some (T - 1 * 86400000) ->
     Date_parse (pubDate b) = Some (T - 3 * 86400000) ->
     Date_parse (pubDate c) = Some (T - 2 * 86400000) ->
     Array_sort byDateDesc [a; b; c] = [a; c; b]).
Proof.
  split.
  - intros now raws. cbn zeta.
    pose proof (processArticles_perm now raws) as Hperm.
    split; [exact Hperm|]. intros Hvalid.
    assert (Hbefore : Forall valid_date
              (filter_non_null
                 (List.map categorizeArticle (dedupe (normalizeAll now raws))))).
    { rewrite Forall_forall in *. intros x Hx. apply Hvalid.
      eapply Permutation_in; [symmetry; exact Hperm | exact Hx]. }
    unfold processArticles. split.
    + apply Array_sort_sorted with (valid := valid_date);
        [apply byDateDesc_key | exact Hbefore].
    + intros t. apply Array_sort_stable with (valid := valid_date);
        [apply byDateDesc_key | exact Hbefore].
  - intros T a b c Ha Hb Hc.
    assert (Hbc : byDateDesc b c
                  = Some (T - 2 * 86400000 - (T - 3 * 86400000)))
      by (unfold byDateDesc; now rewrite Hb, Hc).
    assert (Hac : byDateDesc a c
                  = Some (T - 2 * 86400000 - (T - 1 * 86400000)))
      by (unfold byDateDesc; now rewrite Ha, Hc).
    cbn [Array_sort sort_insert]. rewrite Hbc. cbn [cmp_positive].
    Zltb_true.
    cbn [sort_insert]. rewrite Hac. cbn [cmp_positive].
    Zltb_false.
    reflexivity.
Qed.

Lemma sorted_newest_first_witness :
  let raws := [Examples.raw_day1; Examples.raw_day3; Examples.raw_day2] in
  let out := @processArticles Reference.platform (fun _ => Examples.T) raws in
  StronglySorted (descending (@date_key Reference.platform)) out /\
  List.map title out
  = [lit "AI tool one"; lit "AI tool three"; lit "AI tool two"] /\
  @Array_sort Article (@byDateDesc Reference.platform)
    (List.map (@normalizeArticle Reference.platform Examples.T) raws)
  = List.map (@normalizeArticle Reference.platform Examples.T)
      [Examples.raw_day1; Examples.raw_day2; Examples.raw_day3].
Proof.
  cbn zeta.
  destruct (@sorted_newest_first Reference.platform) as [Hchain Hthree].
  split; [|split].
  - apply (Hchain (fun _ => Examples.T)
             [Examples.raw_day1; Examples.raw_day3; Examples.raw_day2]).
    match goal with
    | |- Forall _ ?o =>
        let v := eval vm_compute in o in
        replace o with v by (vm_compute; reflexivity)
    end.
    repeat (constructor; [eexists; vm_compute; reflexivity|]). constructor.
  - vm_compute. reflexivity.
  - apply (Hthree Examples.T); vm_compute; reflexivity.
Defined.

(** An article whose date does not parse, delivered first, stays in front
    of a validly dated one. *)
Lemma invalid_date_sorts_last_counterexample :
  let out :=
    @processArticles Reference.platform (fun _ => Examples.T)
      [Examples.raw_undated; Examples.raw_dated] in
  List.map title out
  = [lit "AI tool roundup"; lit "Midjourney for interiors"] /\
  List.map (fun a => @Date_parse Reference.platform (pubDate a)) out
  = [None; Some 1704758400000].
Proof. vm_compute. split; reflexivity. Qed.

(** With an undated article between them, two dated articles are not put
    in order either. *)
Example invalid_date_blocks_sort :
  List.map title
    (@processArticles Reference.platform (fun _ => Examples.T)
       [Examples.raw_day3; Examples.raw_undated; Examples.raw_day1])
  = [lit "AI tool two"; lit "AI tool roundup"; lit "AI tool one"].
Proof. vm_compute. reflexivity. Qed.

(* ================================================================= *)
(** ** Pipeline: the fallback *)

Lemma collect_no_items (results : list FetchResult) :
  no_items results -> collect results = [].
Proof.
  induction 1 as [|r results [-> | ->] _ IH]; simpl; auto.
Qed.

(** C8.  When the cache gives nothing and no source delivers an item,
    [loadFeeds] returns the built-in sample set: eight articles, nothing
    thrown, nothing written to the cache. *)
Theorem fallback_to_samples {P : Platform} (clk : Clock) (w : SetItem)
    (results : list FetchResult) (st : LocalStorage) :
  cache_miss (now_cache_read clk) st ->
  no_items results ->
  loadFeeds clk w results st =
    (getMockArticles (now_mock clk),
     snd (getCachedArticles (now_cache_read clk) st)) /\
  List.length (fst (loadFeeds clk w results st)) = 8%nat /\
  List.map id (fst (loadFeeds clk w results st)) =
    List.map lit ["mock-1"; "mock-2"; "mock-3"; "mock-4";
                  "mock-5"; "mock-6"; "mock-7"; "mock-8"]%string.
Proof.
  intros Hmiss Hnone.
  assert (Heq : loadFeeds clk w results st =
                (getMockArticles (now_mock clk),
                 snd (getCachedArticles (now_cache_read clk) st))).
  { unfold loadFeeds. rewrite (collect_no_items Hnone).
    destruct (getCachedArticles (now_cache_read clk) st) as [cached st1] eqn:Hc.
    unfold cache_miss in Hmiss. rewrite Hc in Hmiss. simpl in Hmiss.
    destruct Hmiss as [-> | ->]; reflexivity. }
  rewrite Heq. split; [reflexivity|]. split; reflexivity.
Qed.

Lemma fallback_to_samples_witness :
  List.length
    (fst (@loadFeeds Reference.platform Examples.clock SetOk
            [None; None; Some []; None] empty_storage))
  = 8%nat.
Proof.
  apply (@fallback_to_samples Reference.platform Examples.clock SetOk
           [None; None; Some []; None] empty_storage).
  - left. reflexivity.
  - unfold no_items.
    repeat (constructor; [first [left; reflexivity | right; reflexivity]|]).
    constructor.
Defined.

(* ================================================================= *)
(** ** Normalizer: further properties *)

Lemma hash_loop_app (u v : jsstring) (h : Z) :
  hash_loop (u ++ v) h = hash_loop v (hash_loop u h).
Proof. unfold hash_loop. apply fold_left_app. Qed.

Lemma hash_loop_pair (h : Z) (c d : codeunit) :
  hash_loop [c; (d + 31)%N] h = hash_loop [(c + 1)%N; d] h.
Proof.
  unfold hash_loop. cbn [fold_left]. rewrite !hash_step_poly.
  apply to_int32_congr.
  destruct (to_int32_shift (31 * h + Z.of_N c)) as [k1 ->].
  destruct (to_int32_shift (31 * h + Z.of_N (c + 1))) as [k2 ->].
  rewrite !N2Z.inj_add. change (Z.of_N 31) with 31. change (Z.of_N 1) with 1.
  replace (31 * (31 * h + Z.of_N c + k1 * 4294967296) + (Z.of_N d + 31))
    with (961 * h + 31 * Z.of_N c + Z.of_N d + 31 + (31 * k1) * 4294967296)
    by ring.
  replace (31 * (31 * h + (Z.of_N c + 1) + k2 * 4294967296) + Z.of_N d)
    with (961 * h + 31 * Z.of_N c + Z.of_N d + 31 + (31 * k2) * 4294967296)
    by ring.
  now rewrite !Z_mod_plus_full.
Qed.

(** X1.  The id does not tell all links apart: raising one code unit by one
    and lowering the next by 31 (as from "Aa" to "BB") anywhere in a link
    leaves the id unchanged. *)
Theorem article_id_collision (p s : jsstring) (c d : codeunit) :
  generateArticleId (p ++ [c; (d + 31)%N] ++ s) =
  generateArticleId (p ++ [(c + 1)%N; d] ++ s).
Proof.
  unfold generateArticleId. cbv zeta.
  rewrite !hash_loop_app. now rewrite hash_loop_pair.
Qed.

(** Two links that differ in "Aa" and "BB". *)
Example collision_Aa_BB :
  generateArticleId (lit "https://example.com/Aa") =
  generateArticleId (lit "https://example.com/BB").
Proof. reflexivity. Qed.

Lemma toString36_aux_digits (fuel : nat) (n : N) (acc : jsstring) :
  Forall is_digit36 acc -> Forall is_digit36 (toString36_aux fuel n acc).
Proof.
  revert n acc. induction fuel as [|fuel IH]; intros n acc Hacc; [exact Hacc|].
  cbn [toString36_aux].
  assert (Hd : is_digit36 (digit36 (n mod 36))).
  { assert (H36 : 36%N <> 0%N) by discriminate.
    pose proof (N.mod_lt n 36 H36) as Hm. unfold is_digit36, digit36.
    set (m := (n mod 36)%N) in *. clearbody m.
    destruct (m <? 10)%N eqn:E.
    - apply N.ltb_lt in E. left. lia.
    - apply N.ltb_ge in E. right. lia. }
  destruct (n / 36 =? 0)%N; [now constructor|].
  apply IH. now constructor.
Qed.

Lemma toString36_aux_length_ge (fuel : nat) (n : N) (acc : jsstring) :
  (List.length acc <= List.length (toString36_aux fuel n acc))%nat.
Proof.
  revert n acc. induction fuel as [|fuel IH]; intros n acc; [simpl; lia|].
  cbn [toString36_aux]. destruct (n / 36 =? 0)%N.
  - simpl. lia.
  - specialize (IH (n / 36)%N (digit36 (n mod 36) :: acc)). simpl in IH. lia.
Qed.

Lemma toString36_aux_length_le (fuel k : nat) (n : N) (acc : jsstring) :
  (n < 36 ^ N.of_nat (S k))%N ->
  (List.length (toString36_aux fuel n acc) <= S k + List.length acc)%nat.
Proof.
  revert k n acc. induction fuel as [|fuel IH]; intros k n acc Hn; [simpl; lia|].
  cbn [toString36_aux]. destruct (n / 36 =? 0)%N eqn:E.
  - simpl. lia.
  - apply N.eqb_neq in E. destruct k as [|k].
    + exfalso. apply E. apply N.div_small. exact Hn.
    + assert (Hq : (n / 36 < 36 ^ N.of_nat (S k))%N).
      { apply N.Div0.div_lt_upper_bound.
        rewrite <- N.pow_succ_r', <- Nat2N.inj_succ. exact Hn. }
      specialize (IH k (n / 36)%N (digit36 (n mod 36) :: acc) Hq).
      simpl in IH. simpl. lia.
Qed.

(** X2.  An id is the text [article-] followed by one to six digits of
    [0-9a-z]: it is never longer than 14 units. *)
Theorem article_id_shape (url : jsstring) :
  exists digits,
    generateArticleId url = lit "article-" ++ digits /\
    (1 <= List.length digits <= 6)%nat /\
    Forall is_digit36 digits.
Proof.
  unfold generateArticleId. cbv zeta.
  set (n := Z.to_N (Z.abs (hash_loop url 0))).
  exists (toString36 n). split; [reflexivity|]. split; [split|].
  - unfold toString36.
    pose proof (toString36_aux_length_ge (N.to_nat (N.log2 n)) (n / 36)
                  [digit36 (n mod 36)]) as H.
    cbn [toString36_aux]. destruct (n / 36 =? 0)%N; simpl in *; lia.
  - unfold toString36.
    pose proof (@toString36_aux_length_le (S (N.to_nat (N.log2 n))) 5 n []) as H.
    simpl List.length in H. rewrite Nat.add_0_r in H. apply H.
    assert (Hr : -2147483648 <= hash_loop url 0 < 2147483648)
      by (apply hash_loop_range; lia).
    change (36 ^ N.of_nat 6)%N with 2176782336%N. unfold n. lia.
  - apply toString36_aux_digits. constructor.
Qed.

Lemma stripTags_tagless (s : jsstring) :
  (forall a b c, s <> a ++ LT :: b ++ GT :: c) -> stripTags_from false s = s.
Proof.
  induction s as [|x s IH]; intros H; [reflexivity|].
  cbn [stripTags_from].
  destruct (cu_eqb x LT && has_gt s) eqn:E.
  - exfalso. apply andb_true_iff in E as [Hx Hgt].
    apply cu_eqb_eq in Hx. subst x.
    unfold has_gt in Hgt. apply existsb_exists in Hgt as [g [Hin Hg]].
    apply cu_eqb_eq in Hg. subst g.
    apply in_split in Hin as [b [c ->]]. now apply (H [] b c).
  - f_equal. apply IH. intros a b c Heq. apply (H (x :: a) b c).
    simpl. now f_equal.
Qed.

(** X3.  Stripping markup leaves a text without a complete tag as it is,
    so stripping twice is stripping once. *)
Theorem stripTags_idempotent (html : jsstring) :
  ((forall a b c, html <> a ++ LT :: b ++ GT :: c) -> stripTags html = html) /\
  stripTags (stripTags html) = stripTags html.
Proof.
  split.
  - apply stripTags_tagless.
  - apply stripTags_tagless. apply stripTags_from_no_tag.
Qed.

Lemma stripTags_idempotent_witness : stripTags (lit "a < b") = lit "a < b".
Proof.
  apply (proj1 (stripTags_idempotent (lit "a < b"))).
  intros a b c H.
  assert (Hin : In GT (lit "a < b")).
  { rewrite H. apply in_or_app. right. right. apply in_or_app. right. now left. }
  vm_compute in Hin. intuition discriminate.
Defined.

Lemma or_else_falsy (a : option jsstring) (b : jsstring) :
  truthy a = false -> or_else a b = b.
Proof. destruct a as [[|c s]|]; simpl; [reflexivity | discriminate | reflexivity]. Qed.

Lemma or_else_nonempty (a : option jsstring) (b : jsstring) :
  b <> [] -> or_else a b <> [].
Proof. destruct a as [[|c s]|]; simpl; auto. discriminate. Qed.

Lemma NoDup_link_count (l : list Article) (x : jsstring) :
  NoDup (List.map link l) ->
  (List.length (List.filter (fun a => str_eqb (link a) x) l) <= 1)%nat.
Proof.
  induction l as [|a l IH]; simpl; intros H; [lia|].
  inversion H as [|y ys Hnotin Hnd]; subst.
  destruct (str_eqb (link a) x) eqn:E; [|auto].
  apply str_eqb_eq in E. subst x. simpl.
  replace (List.filter (fun a0 => str_eqb (link a0) (link a)) l) with (@nil Article);
    [simpl; lia|].
  symmetry. clear IH H Hnd. induction l as [|b l IH]; [reflexivity|].
  simpl in *. destruct (str_eqb (link b) (link a)) eqn:E.
  - apply str_eqb_eq in E. tauto.
  - apply IH. tauto.
Qed.

Lemma processArticles_NoDup {P : Platform} (now : nat -> Z)
    (raws : list RawArticle) :
  NoDup (List.map link (processArticles now raws)).
Proof.
  eapply Permutation_NoDup.
  - apply Permutation_map. symmetry. apply processArticles_perm.
  - apply categorized_NoDup. rewrite dedupe_first_occurrences.
    apply first_occurrences_NoDup.
Qed.

(** X4.  A raw item that has neither a link nor a guid gets the link [#] and
    the id [article-0], so of all such items of a fetch at most one reaches
    the processed collection. *)
Theorem linkless_items_collapse {P : Platform} :
  (forall (t : Z) (r : RawArticle),
     truthy (raw_link r) = false -> truthy (raw_guid r) = false ->
     link (normalizeArticle t r) = lit "#" /\
     id (normalizeArticle t r) = lit "article-0") /\
  (forall (now : nat -> Z) (raws : list RawArticle),
     (List.length
        (List.filter (fun a => str_eqb (link a) (lit "#"))
                     (processArticles now raws)) <= 1)%nat).
Proof.
  split.
  - intros t r Hl Hg. simpl. rewrite !(or_else_falsy _ _ Hl).
    rewrite !(or_else_falsy _ _ Hg). split; reflexivity.
  - intros now raws. apply NoDup_link_count. apply processArticles_NoDup.
Qed.

Lemma linkless_items_collapse_witness :
  List.map title
    (@processArticles Reference.platform (fun _ => Examples.T)
       [MoreExamples.raw_bare "AI tool: first";
        MoreExamples.raw_bare "AI tool: second"])
  = [lit "AI tool: first"] /\
  id (@normalizeArticle Reference.platform 0
        (MoreExamples.raw_bare "AI tool: second")) = lit "article-0".
Proof.
  split; [vm_compute; reflexivity|].
  apply (proj1 (@linkless_items_collapse Reference.platform)); reflexivity.
Defined.

Lemma cleanDescription_nonempty {P : Platform} (html : jsstring) :
  cleanDescription html <> [].
Proof.
  unfold cleanDescription. cbv zeta.
  destruct (Nat.ltb _ _).
  - intros H. apply app_eq_nil in H as [_ H]. discriminate.
  - apply or_else_nonempty. discriminate.
Qed.

(** X5.  Whatever the raw item holds, the normalized article has a title, a
    description and a link that are not empty, the category
    [industry-news], and is not flagged as a favorite. *)
Theorem normalizeArticle_fields {P : Platform} (now : Z) (r : RawArticle) :
  title (normalizeArticle now r) <> [] /\
  description (normalizeArticle now r) <> [] /\
  link (normalizeArticle now r) <> [] /\
  category (normalizeArticle now r) = lit "industry-news" /\
  isFavorite (normalizeArticle now r) = false.
Proof.
  simpl. repeat split.
  - apply or_else_nonempty. discriminate.
  - apply cleanDescription_nonempty.
  - apply or_else_nonempty, or_else_nonempty. discriminate.
Qed.





Lemma first_occurrences_fresh (pre l : list Article) :
  NoDup (List.map link l) ->
  (forall a, In a l -> ~ In (link a) (List.map link pre)) ->
  first_occurrences pre l = l.
Proof.
  revert pre. induction l as [|a l IH]; intros pre Hnd Hfresh; [reflexivity|].
  simpl in Hnd. inversion Hnd as [|y ys Hnotin Hnd']; subst.
  cbn [first_occurrences].
  replace (existsb (fun b => str_eqb (link b) (link a)) pre) with false
    by (symmetry; apply link_unseen_spec; apply Hfresh; now left).
  f_equal. apply IH; [exact Hnd'|].
  intros b Hb Hin. rewrite map_app, in_app_iff in Hin. simpl in Hin.
  destruct Hin as [Hin | [Heq | []]].
  - apply (Hfresh b); [now right | exact Hin].
  - apply Hnotin. rewrite Heq. now apply in_map.
Qed.

(** X7.  Deduplicating changes nothing in a list whose links are already
    distinct, so deduplicating twice is deduplicating once. *)
Theorem dedupe_idempotent (arts : list Article) :
  (NoDup (List.map link arts) -> dedupe arts = arts) /\
  dedupe (dedupe arts) = dedupe arts.
Proof.
  assert (Hfix : forall l, NoDup (List.map link l) -> dedupe l = l).
  { intros l Hnd. rewrite dedupe_first_occurrences.
    apply first_occurrences_fresh; [exact Hnd | simpl; tauto]. }
  split; [apply Hfix|]. apply Hfix.
  rewrite dedupe_first_occurrences. apply first_occurrences_NoDup.
Qed.

Lemma dedupe_idempotent_witness :
  dedupe [MoreExamples.flagged "a" "One" false;
          MoreExamples.flagged "b" "Two" false]
  = [MoreExamples.flagged "a" "One" false;
     MoreExamples.flagged "b" "Two" false].
Proof.
  apply (proj1 (dedupe_idempotent _)).
  vm_compute. repeat constructor; simpl; intuition discriminate.
Defined.

(* ================================================================= *)
(** ** Feed parsing, fetching and date labels *)

Lemma parse_each_length (f : Z -> XmlElement -> RawArticle) (now : nat -> Z)
    (els : list XmlElement) :
  List.length (parse_each f now els) = List.length els.
Proof.
  unfold parse_each. rewrite length_map, length_combine, length_seq. lia.
Qed.

Lemma parse_each_In (f : Z -> XmlElement -> RawArticle) (now : nat -> Z)
    (els : list XmlElement) (r : RawArticle) :
  In r (parse_each f now els) -> exists t e, In e els /\ r = f t e.
Proof.
  unfold parse_each. intros H. apply in_map_iff in H as [[e k] [<- Hin]].
  apply in_combine_l in Hin. now exists (now k), e.
Qed.

(** X8.  [parseXMLFeed] yields one raw item for each [item] element and
    looks at the [entry] elements only when there is no [item]; it yields
    nothing exactly when the document has neither; every raw item it
    yields has a title that is not empty. *)
Theorem parseXMLFeed_shape {P : Platform} (now : nat -> Z)
    (xmlDoc : XmlDocument) :
  (rssItems xmlDoc <> [] ->
   List.length (parseXMLFeed now xmlDoc) = List.length (rssItems xmlDoc)) /\
  (rssItems xmlDoc = [] ->
   List.length (parseXMLFeed now xmlDoc) = List.length (atomEntries xmlDoc)) /\
  (parseXMLFeed now xmlDoc = [] <->
   rssItems xmlDoc = [] /\ atomEntries xmlDoc = []) /\
  (forall r, In r (parseXMLFeed now xmlDoc) -> truthy (raw_title r) = true).
Proof.
  assert (Htitle : forall f els r,
            (forall t e, truthy (raw_title (f t e)) = true) ->
            In r (parse_each f now els) -> truthy (raw_title r) = true).
  { intros f els r Hf Hr. apply parse_each_In in Hr as [t [el [_ ->]]].
    apply Hf. }
  assert (Hitem : forall t e, truthy (raw_title (parseItem t e)) = true).
  { intros t e. unfold parseItem. cbn [raw_title].
    now destruct (text_of e (lit "title")) as [[|c s]|]. }
  assert (Hentry : forall t e, truthy (raw_title (parseEntry t e)) = true).
  { intros t e. unfold parseEntry. cbn [raw_title].
    now destruct (text_of e (lit "title")) as [[|c s]|]. }
  unfold parseXMLFeed.
  destruct (rssItems xmlDoc) as [|i items] eqn:Hi;
    [destruct (atomEntries xmlDoc) as [|e es] eqn:He|].
  - split; [congruence|]. split; [reflexivity|]. split; [tauto|].
    intros r [].
  - split; [congruence|]. split; [intros _; apply parse_each_length|].
    split; [|intros r; apply Htitle; assumption].
    split.
    + intros Hnil. apply (f_equal (@List.length _)) in Hnil.
      rewrite parse_each_length in Hnil. discriminate.
    + intros [_ Hnil]. discriminate.
  - split; [intros _; apply parse_each_length|]. split; [discriminate|].
    split; [|intros r; apply Htitle; assumption].
    split.
    + intros Hnil. apply (f_equal (@List.length _)) in Hnil.
      rewrite parse_each_length in Hnil. discriminate.
    + intros [Hnil _]. discriminate.
Qed.

Lemma parseXMLFeed_shape_witness :
  List.map raw_title
    (@parseXMLFeed Reference.platform (fun _ => Examples.T)
       (mkDocument [MoreExamples.item_el] [MoreExamples.entry_el]))
  = [Some (lit "AI tool from RSS")] /\
  List.length
    (@parseXMLFeed Reference.platform (fun _ => Examples.T)
       (mkDocument [] [MoreExamples.entry_el; MoreExamples.entry_el]))
  = 2%nat.
Proof.
  split; [reflexivity|].
  apply (@parseXMLFeed_shape Reference.platform (fun _ => Examples.T)
           (mkDocument [] [MoreExamples.entry_el; MoreExamples.entry_el])).
  reflexivity.
Defined.



Lemma formatDate_days {P : Platform} (toLocaleDateString : option Z -> jsstring)
    (now t : Z) (dateString : jsstring) :
  Date_parse dateString = Some t ->
  Z.abs (now - t) < 30 * 86400000 ->
  formatDate toLocaleDateString now dateString =
  nth (label_index (Z.abs (now - t) / 86400000)) relative_labels [].
Proof.
  intros Hp Hlt. unfold formatDate. rewrite Hp. cbv zeta.
  change (1000 * 60 * 60 * 24) with 86400000.
  set (d := Z.abs (now - t) / 86400000).
  assert (Hd : 0 <= d < 30).
  { unfold d. split.
    - apply Z.div_pos; lia.
    - apply Z.div_lt_upper_bound; lia. }
  clearbody d.
  assert (Hcases : d = 0 \/ d = 1 \/ d = 2 \/ d = 3 \/ d = 4 \/ d = 5 \/ d = 6
                   \/ d = 7 \/ d = 8 \/ d = 9 \/ d = 10 \/ d = 11 \/ d = 12
                   \/ d = 13 \/ d = 14 \/ d = 15 \/ d = 16 \/ d = 17 \/ d = 18
                   \/ d = 19 \/ d = 20 \/ d = 21 \/ d = 22 \/ d = 23 \/ d = 24
                   \/ d = 25 \/ d = 26 \/ d = 27 \/ d = 28 \/ d = 29) by lia.
  repeat (destruct Hcases as [-> | Hcases]; [reflexivity|]).
  subst d. reflexivity.
Qed.

(** X10.  For a date less than 30 days from now, in the past or in the
    future, [formatDate] returns one of eleven fixed labels, chosen by the
    number of whole days between the two instants alone: a date in the
    future is labelled like the date as far in the past.  A date that does
    not parse is handed to the platform's date formatting. *)
Theorem formatDate_relative {P : Platform}
    (toLocaleDateString : option Z -> jsstring) (now : Z) :
  (forall (dateString : jsstring) (t : Z),
     Date_parse dateString = Some t ->
     Z.abs (now - t) < 30 * 86400000 ->
     formatDate toLocaleDateString now dateString =
       nth (label_index (Z.abs (now - t) / 86400000)) relative_labels [] /\
     In (formatDate toLocaleDateString now dateString) relative_labels) /\
  (forall (past future : jsstring) (delta : Z),
     0 <= delta < 30 * 86400000 ->
     Date_parse past = Some (now - delta) ->
     Date_parse future = Some (now + delta) ->
     formatDate toLocaleDateString now past =
     formatDate toLocaleDateString now future) /\
  (forall dateString,
     Date_parse dateString = None ->
     formatDate toLocaleDateString now dateString = toLocaleDateString None).
Proof.
  split; [|split].
  - intros dateString t Hp Hlt. split; [now apply formatDate_days|].
    rewrite (formatDate_days _ _ _ Hp Hlt).
    set (d := Z.abs (now - t) / 86400000).
    assert (Hd : 0 <= d < 30).
    { unfold d. split.
      - apply Z.div_pos; lia.
      - apply Z.div_lt_upper_bound; lia. }
    apply nth_In. change (List.length relative_labels) with 11%nat.
    unfold label_index. destruct (d <? 7) eqn:E.
    + apply Z.ltb_lt in E. lia.
    + apply Z.ltb_ge in E.
      assert (d / 7 < 5) by (apply Z.div_lt_upper_bound; lia).
      assert (0 <= d / 7) by (apply Z.div_pos; lia). lia.
  - intros past future delta Hd Hpast Hfuture.
    rewrite (formatDate_days _ _ _ Hpast) by lia.
    rewrite (formatDate_days _ _ _ Hfuture) by lia.
    do 3 f_equal. lia.
  - intros dateString Hp. unfold formatDate. now rewrite Hp.
Qed.

Lemma formatDate_relative_witness :
  @formatDate Reference.platform MoreExamples.en_US_date Examples.T
    (lit "2024-01-01T06:00:00.000Z") = lit "1 week ago" /\
  @formatDate Reference.platform MoreExamples.en_US_date Examples.T
    (lit "2024-01-18T18:00:00.000Z") = lit "1 week ago".
Proof.
  destruct (@formatDate_relative Reference.platform MoreExamples.en_US_date
              Examples.T) as [Hdays [Hsym _]].
  assert (Hpast : @formatDate Reference.platform MoreExamples.en_US_date
                    Examples.T (lit "2024-01-01T06:00:00.000Z")
                  = lit "1 week ago").
  { destruct (Hdays (lit "2024-01-01T06:00:00.000Z") 1704088800000) as [-> _];
      [vm_compute; reflexivity | vm_compute; reflexivity | reflexivity]. }
  split; [exact Hpast|]. rewrite <- Hpast. symmetry.
  apply (Hsym _ _ 756000000); [lia | vm_compute; reflexivity
                               | vm_compute; reflexivity].
Defined.

(** Beyond 30 days the date itself is shown. *)
Example formatDate_old :
  @formatDate Reference.platform MoreExamples.en_US_date Examples.T
    (lit "2023-11-14T22:13:20.123Z") = lit "Nov 14, 2023".
Proof. vm_compute. reflexivity. Qed.

(* ================================================================= *)
(** ** Storage: further properties *)

Section StorageMore.
Context {P : Platform}.

Lemma isFavoriteId_saved (now : Z) (x : jsstring) (st : LocalStorage) :
  isFavoriteId x (snd (saveFavorite SetOk now x st)) = true.
Proof.
  unfold isFavoriteId, saveFavorite.
  destruct (existsb _ (getFavorites st)) eqn:E; simpl; [exact E|].
  unfold getFavorites at 1. simpl. rewrite existsb_app. simpl.
  now rewrite str_eqb_refl, orb_true_r.
Qed.

Lemma isFavoriteId_removed (x : jsstring) (st : LocalStorage) :
  isFavoriteId x (snd (removeFavorite SetOk x st)) = false.
Proof.
  unfold isFavoriteId, removeFavorite. cbn [snd]. unfold getFavorites at 1.
  simpl. induction (getFavorites st) as [|f l IH]; [reflexivity|].
  simpl. destruct (str_eqb (fav_id f) x) eqn:E; simpl; [exact IH|].
  now rewrite E.
Qed.

Lemma isFavoriteId_save_other (w : SetItem) (now : Z) (x y : jsstring)
    (st : LocalStorage) :
  y <> x ->
  isFavoriteId y (snd (saveFavorite w now x st)) = isFavoriteId y st.
Proof.
  intros Hne. unfold isFavoriteId, saveFavorite.
  destruct (existsb _ (getFavorites st)); simpl; [reflexivity|].
  destruct w; simpl; try reflexivity.
  unfold getFavorites at 1. simpl. rewrite existsb_app. simpl.
  replace (str_eqb x y) with false; [now rewrite !orb_false_r|].
  symmetry. apply str_eqb_neq. congruence.
Qed.

Lemma isFavoriteId_remove_other (w : SetItem) (x y : jsstring)
    (st : LocalStorage) :
  y <> x ->
  isFavoriteId y (snd (removeFavorite w x st)) = isFavoriteId y st.
Proof.
  intros Hne. unfold isFavoriteId, removeFavorite.
  destruct w; simpl; try reflexivity.
  unfold getFavorites at 1. simpl.
  induction (getFavorites st) as [|f l IH]; [reflexivity|].
  simpl. destruct (str_eqb (fav_id f) x) eqn:E; simpl.
  - rewrite IH. apply str_eqb_eq in E.
    replace (str_eqb (fav_id f) y) with false; [reflexivity|].
    symmetry. apply str_eqb_neq. congruence.
  - now rewrite IH.
Qed.

Lemma saveFavorite_reports (now : Z) (x : jsstring) (st : LocalStorage) :
  fst (saveFavorite SetOk now x st) = negb (isFavoriteId x st).
Proof.
  unfold saveFavorite, isFavoriteId.
  now destruct (existsb _ (getFavorites st)).
Qed.

Lemma saveFavorite_failed (w : SetItem) (now : Z) (x : jsstring)
    (st : LocalStorage) :
  w <> SetOk -> saveFavorite w now x st = (false, st).
Proof.
  intros Hw. unfold saveFavorite.
  destruct (negb (existsb _ (getFavorites st))); [|reflexivity].
  destruct w; congruence.
Qed.

Lemma removeFavorite_failed (w : SetItem) (x : jsstring) (st : LocalStorage) :
  w <> SetOk -> removeFavorite w x st = (false, st).
Proof. intros Hw. unfold removeFavorite. destruct w; congruence. Qed.

(** X11.  [isFavorite] follows the operations: after a successful add of
    [x] it is true for [x], after a successful remove (and after
    [clearFavorites]) false, and neither operation changes it for another
    id; an add reports [true] exactly when the id was not stored before;
    a failed write changes it for no id. *)
Theorem isFavorite_tracks (st : LocalStorage) (x y : jsstring) (now : Z) :
  isFavoriteId x (snd (saveFavorite SetOk now x st)) = true /\
  fst (saveFavorite SetOk now x st) = negb (isFavoriteId x st) /\
  isFavoriteId x (snd (removeFavorite SetOk x st)) = false /\
  isFavoriteId y (snd (clearFavorites st)) = false /\
  (y <> x ->
   forall w,
     isFavoriteId y (snd (saveFavorite w now x st)) = isFavoriteId y st /\
     isFavoriteId y (snd (removeFavorite w x st)) = isFavoriteId y st) /\
  (forall w, w <> SetOk ->
     snd (saveFavorite w now x st) = st /\ snd (removeFavorite w x st) = st).
Proof.
  split; [apply isFavoriteId_saved|]. split.
  { unfold saveFavorite, isFavoriteId.
    now destruct (existsb _ (getFavorites st)). }
  split; [apply isFavoriteId_removed|]. split; [reflexivity|]. split.
  - intros Hne w. split.
    + now apply isFavoriteId_save_other.
    + now apply isFavoriteId_remove_other.
  - intros w Hw. unfold saveFavorite, removeFavorite.
    destruct w; try congruence;
      destruct (negb (existsb _ (getFavorites st))); split; reflexivity.
Qed.

(** X12.  The favorites and the cache do not touch each other: no
    favorites operation changes the cache entry, and no cache operation,
    nor [loadFeeds] as a whole, changes the favorites. *)
Theorem favorites_cache_frame (st : LocalStorage) :
  (forall w now x,
     ls_cache (snd (saveFavorite w now x st)) = ls_cache st /\
     ls_cache (snd (removeFavorite w x st)) = ls_cache st /\
     ls_cache (snd (clearFavorites st)) = ls_cache st) /\
  (forall w t1 t2 arts now,
     ls_favorites (snd (cacheArticles w t1 t2 arts st)) = ls_favorites st /\
     ls_favorites (snd (getCachedArticles now st)) = ls_favorites st /\
     ls_favorites (snd (clearCache st)) = ls_favorites st) /\
  (forall clk w results,
     ls_favorites (snd (loadFeeds clk w results st)) = ls_favorites st).
Proof.
  assert (Hget : forall now s,
            ls_favorites (snd (getCachedArticles now s)) = ls_favorites s).
  { intros now s. unfold getCachedArticles.
    destruct (ls_cache s) as [[c|]|]; try reflexivity.
    now destruct (now <? expiresAt c). }
  split; [|split].
  - intros w now x. unfold saveFavorite, removeFavorite.
    destruct (negb (existsb _ (getFavorites st))); destruct w;
      repeat split; reflexivity.
  - intros w t1 t2 arts now. split; [now destruct w|]. split; [apply Hget|].
    reflexivity.
  - intros clk w results. unfold loadFeeds.
    specialize (Hget (now_cache_read clk) st).
    destruct (getCachedArticles (now_cache_read clk) st) as [cached st1].
    cbn [snd] in Hget.
    destruct cached as [[|a cached]|]; try exact Hget;
      destruct (collect results); try exact Hget;
      destruct w; exact Hget.
Qed.

End StorageMore.

Lemma isFavorite_tracks_witness :
  let st := snd (@saveFavorite Reference.platform SetOk 0 (lit "a")
                   empty_storage) in
  isFavoriteId (lit "a") (snd (@saveFavorite Reference.platform SetOk 1
                                 (lit "b") st)) = true /\
  snd (@saveFavorite Reference.platform OtherError 1 (lit "b") st) = st.
Proof.
  cbn zeta.
  destruct (@isFavorite_tracks Reference.platform
              (snd (@saveFavorite Reference.platform SetOk 0 (lit "a")
                      empty_storage))
              (lit "b") (lit "a") 1) as [_ [_ [_ [_ [Hother Hfail]]]]].
  split.
  - destruct (Hother ltac:(discriminate) SetOk) as [-> _]. reflexivity.
  - apply (Hfail OtherError). discriminate.
Defined.


(** A still valid entry is lost when the quota is exceeded. *)
Example quota_evicts_valid_entry :
  let st := snd (cacheArticles SetOk 0 0 [Examples.midjourney_article]
                               empty_storage) in
  fst (getCachedArticles 10 st) = Some [Examples.midjourney_article] /\
  fst (getCachedArticles 10
         (snd (cacheArticles QuotaExceededError 5 5
                 [Examples.cooking_article] st))) = None.
Proof. split; reflexivity. Qed.

Section PreferencesFacts.
Context {P : Platform}.

(** X14.  Preferences round trip: what a successful [savePreferences]
    stored is what [getPreferences] returns; without a stored or readable
    record the default [{lastVisit: null, selectedCategory: 'all'}] is
    returned; [updateLastVisit] sets the visit time and keeps the selected
    category; none of them touches another key. *)
Theorem preferences_roundtrip (st : AppStorage) (p : Preferences) (now : Z) :
  getPreferences (snd (savePreferences SetOk p st)) = p /\
  (ls_preferences st = None \/ ls_preferences st = Some Unparsable ->
   getPreferences st = default_preferences) /\
  getPreferences (updateLastVisit SetOk now st)
  = mkPreferences (Some (toISOString now))
                  (selectedCategory (getPreferences st)) /\
  (forall w,
     core (snd (savePreferences w p st)) = core st /\
     others (snd (savePreferences w p st)) = others st /\
     core (updateLastVisit w now st) = core st /\
     others (updateLastVisit w now st) = others st) /\
  (forall w, w <> SetOk ->
     savePreferences w p st = (false, st) /\ updateLastVisit w now st = st).
Proof.
  split; [reflexivity|]. split.
  { unfold getPreferences. intros [-> | ->]; reflexivity. }
  split; [reflexivity|]. split.
  - intros w. unfold updateLastVisit. destruct w; repeat split; reflexivity.
  - intros w Hw. unfold updateLastVisit.
    destruct w; try congruence; split; reflexivity.
Qed.

(** X15.  [clearAllData] removes the three keys of the application and
    every other key that starts with [newsTracker_], and nothing else:
    the remaining keys are those without the prefix, with their values
    and in their order; afterwards there are no favorites, no cache and
    the default preferences; doing it again changes nothing. *)
Theorem clearAllData_scope (st : AppStorage) :
  let st' := snd (clearAllData st) in
  getFavorites (core st') = [] /\
  (forall now, fst (getCachedArticles now (core st')) = None) /\
  getPreferences st' = default_preferences /\
  (forall kv, In kv (others st') <->
     In kv (others st) /\ startsWith STORAGE_PREFIX (fst kv) = false) /\
  (Forall (fun kv => startsWith STORAGE_PREFIX (fst kv) = false) (others st) ->
   others st' = others st) /\
  snd (clearAllData st') = st'.
Proof.
  cbn zeta. split; [reflexivity|]. split; [reflexivity|].
  split; [reflexivity|]. unfold clearAllData. cbn [snd others].
  split; [|split].
  - intros kv. rewrite filter_In, negb_true_iff. tauto.
  - intros H. induction H as [|kv l Hkv _ IH]; [reflexivity|].
    cbn [List.filter]. rewrite Hkv. cbn [negb]. now rewrite IH.
  - f_equal. induction (others st) as [|kv l IH]; [reflexivity|].
    cbn [List.filter].
    destruct (startsWith STORAGE_PREFIX (fst kv)) eqn:E; cbn [negb].
    + exact IH.
    + cbn [List.filter]. rewrite E. cbn [negb]. now rewrite IH.
Qed.

End PreferencesFacts.

Lemma preferences_roundtrip_witness :
  @getPreferences (mkAppStorage empty_storage (Some Unparsable) [])
  = default_preferences.
Proof.
  apply (@preferences_roundtrip Reference.platform
           (mkAppStorage empty_storage (Some Unparsable) [])
           default_preferences 0).
  right. reflexivity.
Defined.


Lemma clearAllData_scope_witness :
  others
    (snd (clearAllData
            (mkAppStorage empty_storage None
               [(lit "theme", lit "dark"); (lit "lang", lit "en")])))
  = [(lit "theme", lit "dark"); (lit "lang", lit "en")].
Proof.
  apply (clearAllData_scope
           (mkAppStorage empty_storage None
              [(lit "theme", lit "dark"); (lit "lang", lit "en")])).
  repeat constructor.
Defined.

(** A foreign key that happens to carry the prefix goes too. *)
Example clearAllData_prefixed :
  others
    (snd (clearAllData
            (mkAppStorage empty_storage None
               [(lit "newsTracker_extra", lit "1"); (lit "theme", lit "dark")])))
  = [(lit "theme", lit "dark")].
Proof. reflexivity. Qed.

(* ================================================================= *)
(** ** Classifier and filters: further properties *)

Section FiltersFacts.
Context {P : Platform}.

Lemma content_of_with_category (a : Article) (c : jsstring) :
  content_of (with_category a c) = content_of a.
Proof. reflexivity. Qed.

(** X16.  The classifier looks at the title and the description only: the
    category an article already carries does not influence the result, and
    classifying a classified article returns it unchanged. *)
Theorem categorizeArticle_idempotent (a : Article) :
  (forall c, categorizeArticle (with_category a c) = categorizeArticle a) /\
  (forall a', categorizeArticle a = Some a' -> categorizeArticle a' = Some a').
Proof.
  assert (Hcat : forall c, categorizeArticle (with_category a c)
                           = categorizeArticle a).
  { intros c. unfold categorizeArticle, isAIRelated.
    rewrite content_of_with_category.
    destruct (negb (some_keyword (content_of a) AI_KEYWORDS)); [reflexivity|].
    cbv zeta.
    now destruct (categorize_loop (content_of a) CATEGORIES). }
  split; [exact Hcat|].
  intros a' H. pose proof H as H'.
  apply categorizeArticle_some in H' as [_ ->]. now rewrite Hcat.
Qed.

Lemma array_includes_favorites (st : LocalStorage) (x : jsstring) :
  array_includes (List.map fav_id (getFavorites st)) x = isFavoriteId x st.
Proof.
  unfold array_includes, isFavoriteId.
  induction (getFavorites st) as [|f l IH]; [reflexivity|].
  simpl. now rewrite IH.
Qed.

Lemma filterArticles_real (arts : list Article) (c : jsstring)
    (st : LocalStorage) :
  In c real_category_ids ->
  filterArticles arts c st =
  List.filter (fun a => str_eqb (category a) c) arts.
Proof.
  intros Hin. unfold filterArticles.
  pose proof real_category_ids_not_pseudo as Hall.
  rewrite forallb_forall in Hall. apply Hall in Hin.
  apply negb_true_iff in Hin. unfold is_pseudo in Hin.
  apply orb_false_iff in Hin as [-> ->]. reflexivity.
Qed.

(** X17.  The favorites view shows exactly the articles whose id is in the
    store: an article of the list appears under [favorites] if and only if
    [isFavorite] holds of its id; so it appears after a successful add of
    its id and not after a successful remove. *)
Theorem filterArticles_favorites (arts : list Article) (st : LocalStorage) :
  (forall a, In a (filterArticles arts (lit "favorites") st) <->
             In a arts /\ isFavoriteId (id a) st = true) /\
  (forall a now, In a arts ->
     In a (filterArticles arts (lit "favorites")
             (snd (saveFavorite SetOk now (id a) st)))) /\
  (forall a b, id b = id a ->
     ~ In b (filterArticles arts (lit "favorites")
               (snd (removeFavorite SetOk (id a) st)))).
Proof.
  assert (Hiff : forall s a,
            In a (filterArticles arts (lit "favorites") s) <->
            In a arts /\ isFavoriteId (id a) s = true).
  { intros s a. unfold filterArticles.
    change (str_eqb (lit "favorites") (lit "all")) with false.
    change (str_eqb (lit "favorites") (lit "favorites")) with true.
    cbv iota zeta. rewrite filter_In. now rewrite array_includes_favorites. }
  split; [apply Hiff|]. split.
  - intros a now Ha. apply Hiff. split; [exact Ha|]. apply isFavoriteId_saved.
  - intros a b Hid Hin. apply Hiff in Hin as [_ Hfav].
    rewrite Hid, isFavoriteId_removed in Hfav. discriminate.
Qed.

Lemma sum_over_indicator (x : jsstring) (cs : list jsstring) :
  NoDup cs -> In x cs ->
  sum_over (fun c => if str_eqb x c then 1%nat else 0%nat) cs = 1%nat.
Proof.
  induction cs as [|c cs IH]; simpl; intros Hnd Hin; [tauto|].
  inversion Hnd as [|y ys Hnotin Hnd']; subst.
  destruct (str_eqb x c) eqn:E.
  - apply str_eqb_eq in E. subst c. f_equal.
    clear IH Hin Hnd Hnd'. induction cs as [|c cs IH]; [reflexivity|].
    simpl in *. replace (str_eqb x c) with false.
    + apply IH. tauto.
    + symmetry. apply str_eqb_neq. intros ->. tauto.
  - apply str_eqb_neq in E. destruct Hin as [-> | Hin]; [congruence|].
    now apply IH.
Qed.

Lemma sum_over_add (f g : jsstring -> nat) (cs : list jsstring) :
  sum_over (fun c => (f c + g c)%nat) cs = (sum_over f cs + sum_over g cs)%nat.
Proof. induction cs as [|c cs IH]; simpl; [reflexivity|]. rewrite IH. lia. Qed.

Lemma sum_over_ext (f g : jsstring -> nat) (cs : list jsstring) :
  (forall c, In c cs -> f c = g c) -> sum_over f cs = sum_over g cs.
Proof.
  induction cs as [|c cs IH]; simpl; intros H; [reflexivity|].
  rewrite (H c) by now left. f_equal. apply IH. intros c' Hc'. apply H.
  now right.
Qed.

Lemma real_category_ids_NoDup : NoDup real_category_ids.
Proof.
  unfold real_category_ids. cbn [List.map].
  repeat (constructor; [cbn [In]; intuition discriminate|]). constructor.
Qed.

Lemma category_filters_partition (arts : list Article) :
  Forall (fun a => In (category a) real_category_ids) arts ->
  sum_over
    (fun c => List.length (List.filter (fun a => str_eqb (category a) c) arts))
    real_category_ids
  = List.length arts.
Proof.
  induction 1 as [|a arts Ha _ IH].
  - unfold real_category_ids. reflexivity.
  - rewrite <- (sum_over_ext
             (fun c => ((if str_eqb (category a) c then 1 else 0)
                        + List.length
                            (List.filter (fun a0 => str_eqb (category a0) c)
                                         arts))%nat)).
    + rewrite sum_over_add, IH.
      rewrite (sum_over_indicator _ real_category_ids_NoDup Ha). reflexivity.
    + intros c _. cbn [List.filter].
      now destruct (str_eqb (category a) c).
Qed.

Lemma count_of_table (arts : list Article) (st : LocalStorage) (c : jsstring) :
  In c getAllCategoryIds ->
  count_of (getArticleCountByCategory arts st) c
  = List.length (filterArticles arts c st).
Proof.
  unfold getAllCategoryIds, CATEGORIES. cbn [List.map fst In].
  intros H.
  repeat (destruct H as [<- | H]; [reflexivity|]). destruct H.
Qed.

(** X18.  The count shown for a category is the number of articles the
    filter of that category shows, for each of the eight categories; and
    when every article carries one of the six real categories, as the
    classifier guarantees, the six counts add up to the count of [all]:
    every article is under exactly one of them. *)
Theorem counts_match_filters (arts : list Article) (st : LocalStorage) :
  (forall c, In c getAllCategoryIds ->
     count_of (getArticleCountByCategory arts st) c
     = List.length (filterArticles arts c st)) /\
  (Forall (fun a => In (category a) real_category_ids) arts ->
   sum_over (count_of (getArticleCountByCategory arts st)) real_category_ids
   = count_of (getArticleCountByCategory arts st) (lit "all")).
Proof.
  split; [apply count_of_table|].
  intros Hreal.
  assert (Hsub : forall c, In c real_category_ids -> In c getAllCategoryIds).
  { intros c Hc. rewrite <- real_categories_ids in Hc.
    apply in_map_iff in Hc as [e [<- He]]. unfold real_categories in He.
    apply filter_In in He as [He _]. unfold getAllCategoryIds.
    now apply in_map. }
  rewrite (count_of_table arts st (c := lit "all")) by (vm_compute; tauto).
  rewrite (sum_over_ext (count_of (getArticleCountByCategory arts st))
             (fun c => List.length
                         (List.filter (fun a => str_eqb (category a) c) arts))).
  - now apply category_filters_partition.
  - intros c Hc. rewrite count_of_table by now apply Hsub.
    now rewrite filterArticles_real.
Qed.

End FiltersFacts.

Lemma categorizeArticle_idempotent_witness :
  @categorizeArticle Reference.platform
    (with_category Examples.both_article (lit "ai-design-tools"))
  = Some (with_category Examples.both_article (lit "ai-design-tools")).
Proof.
  apply (proj2 (@categorizeArticle_idempotent Reference.platform
                  Examples.both_article)).
  vm_compute. reflexivity.
Defined.

Lemma filterArticles_favorites_witness :
  In (MoreExamples.flagged "b" "Rendering farms" false)
     (filterArticles MoreExamples.library (lit "favorites")
        (snd (@saveFavorite Reference.platform SetOk 0 (lit "b")
                empty_storage))).
Proof.
  apply (proj1 (proj2 (@filterArticles_favorites Reference.platform
                         MoreExamples.library empty_storage))
           (MoreExamples.flagged "b" "Rendering farms" false) 0).
  right. left. reflexivity.
Defined.

Lemma counts_match_filters_witness :
  sum_over (count_of (getArticleCountByCategory MoreExamples.library
                                                empty_storage))
           real_category_ids
  = 2%nat.
Proof.
  rewrite (proj2 (counts_match_filters MoreExamples.library empty_storage)).
  - reflexivity.
  - repeat constructor; vm_compute; tauto.
Defined.

(* ================================================================= *)
(** ** Search *)

Lemma filter_comm {A : Type} (p q : A -> bool) (l : list A) :
  List.filter p (List.filter q l) = List.filter q (List.filter p l).
Proof.
  induction l as [|x l IH]; [reflexivity|]. simpl.
  destruct (p x) eqn:Hp, (q x) eqn:Hq; simpl; rewrite ?Hp, ?Hq, IH; reflexivity.
Qed.

Lemma filter_twice {A : Type} (p : A -> bool) (l : list A) :
  List.filter p (List.filter p l) = List.filter p l.
Proof.
  induction l as [|x l IH]; [reflexivity|]. simpl.
  destruct (p x) eqn:Hp; simpl; rewrite ?Hp, IH; reflexivity.
Qed.

Lemma trimStart_blank (q : jsstring) :
  forallb is_whitespace q = true -> trimStart q = [].
Proof.
  induction q as [|c q IH]; [reflexivity|]. simpl.
  intros H. apply andb_true_iff in H as [-> H]. now apply IH.
Qed.

Lemma trim_blank (q : jsstring) : forallb is_whitespace q = true -> trim q = [].
Proof. intros H. unfold trim. now rewrite (trimStart_blank _ H). Qed.

Section SearchFacts.
Context {P : Platform}.

Lemma searchArticles_blank (arts : list Article) (q : jsstring) :
  trim q = [] -> searchArticles arts (Some q) = arts.
Proof.
  intros H. unfold searchArticles. destruct q as [|c q]; [reflexivity|].
  now rewrite H.
Qed.

(** X19.  A search without a query, or with a query of white space only,
    returns the list as it is; any search returns articles of the list
    only; searching and filtering by category can be done in either
    order; searching a search result again with the same query changes
    nothing. *)
Theorem searchArticles_filter (arts : list Article) (query : option jsstring) :
  (query = None -> searchArticles arts query = arts) /\
  (forall q, query = Some q -> forallb is_whitespace q = true ->
     searchArticles arts query = arts) /\
  (forall a, In a (searchArticles arts query) -> In a arts) /\
  (forall c st,
     filterArticles (searchArticles arts query) c st =
     searchArticles (filterArticles arts c st) query) /\
  searchArticles (searchArticles arts query) query = searchArticles arts query.
Proof.
  split; [now intros ->|]. split.
  { intros q -> Hq. apply searchArticles_blank. now apply trim_blank. }
  destruct query as [[|x q]|]; try (repeat split; auto; fail).
  unfold searchArticles.
  destruct (str_eqb (trim (x :: q)) []); [repeat split; auto|].
  split; [|split].
  - intros a Ha. apply filter_In in Ha. tauto.
  - intros c st. unfold filterArticles.
    destruct (str_eqb c (lit "all")); [reflexivity|].
    destruct (str_eqb c (lit "favorites")); apply filter_comm.
  - apply filter_twice.
Qed.

Lemma occurs_lowered {L : AsciiCase P} (s q w : jsstring) :
  any_case q w -> occurs_in w s -> includes (toLowerCase s) q = true.
Proof.
  intros [Ha Hl] [pre [post ->]]. apply includes_spec. rewrite <- Hl.
  now apply lower_inside.
Qed.

(** X20.  The search does not depend on letter case (when the platform
    lower-cases ASCII text in place): an article of the list whose title,
    description or source contains the words of the query in any mixture of
    cases is found, whatever the cases in the query. *)
Theorem searchArticles_any_case {L : AsciiCase P} (arts : list Article)
    (a : Article) (query q w : jsstring) :
  any_case q query -> trim q = q -> any_case q w ->
  occurs_in w (title a) \/ occurs_in w (description a)
    \/ occurs_in w (source a) ->
  In a arts ->
  In a (searchArticles arts (Some query)).
Proof.
  intros [Hqa Hql] Htrim Hw Hocc Ha. unfold searchArticles.
  destruct query as [|x query']; [exact Ha|].
  destruct (str_eqb (trim (x :: query')) []); [exact Ha|].
  cbv zeta. rewrite (lower_ascii Hqa), Hql, Htrim.
  apply filter_In. split; [exact Ha|].
  destruct Hocc as [H | [H | H]]; rewrite (occurs_lowered Hw H);
    now rewrite ?orb_true_r.
Qed.

End SearchFacts.

Lemma searchArticles_filter_witness :
  @searchArticles Reference.platform MoreExamples.library (Some (lit "  "))
  = MoreExamples.library.
Proof.
  apply (@searchArticles_filter Reference.platform MoreExamples.library
           (Some (lit "  "))) with (q := lit "  "); reflexivity.
Defined.

Lemma searchArticles_any_case_witness :
  In (MoreExamples.flagged "a" "Midjourney in practice" false)
     (@searchArticles Reference.platform MoreExamples.library
        (Some (lit "MIDJOURNEY"))).
Proof.
  apply (@searchArticles_any_case Reference.platform Reference_AsciiCase
           MoreExamples.library _ (lit "MIDJOURNEY") (lit "midjourney")
           (lit "Midjourney")).
  - split; [|reflexivity]. unfold is_ascii.
    repeat (constructor; [reflexivity|]). constructor.
  - reflexivity.
  - split; [|reflexivity]. unfold is_ascii.
    repeat (constructor; [reflexivity|]). constructor.
  - left. exists [], (lit " in practice"). reflexivity.
  - left. reflexivity.
Defined.

(* ================================================================= *)
(** ** Pipeline: further properties *)

Lemma filter_non_null_nil {A B : Type} (f : A -> option B) (l : list A) :
  filter_non_null (List.map f l) = [] <-> forall d, In d l -> f d = None.
Proof.
  induction l as [|a l IH]; simpl; [tauto|].
  destruct (f a) eqn:Ha.
  - split; [discriminate|]. intros H. specialize (H a (or_introl eq_refl)).
    congruence.
  - rewrite IH. split.
    + intros H d [<- | Hd]; auto.
    + intros H d Hd. apply H. now right.
Qed.

Section PipelineMore.
Context {P : Platform}.

Lemma normalizeAll_In (now : nat -> Z) (raws : list RawArticle) (d : Article) :
  In d (normalizeAll now raws) -> exists t r, In r raws /\ d = normalizeArticle t r.
Proof.
  unfold normalizeAll. intros H. apply in_map_iff in H as [[r k] [<- Hin]].
  apply in_combine_l in Hin. now exists (now k), r.
Qed.

Lemma processArticles_In (now : nat -> Z) (raws : list RawArticle) (a : Article) :
  In a (processArticles now raws) <->
  exists d, In d (dedupe (normalizeAll now raws)) /\ categorizeArticle d = Some a.
Proof.
  rewrite <- filter_non_null_In. split; intros H.
  - eapply Permutation_in; [apply processArticles_perm | exact H].
  - eapply Permutation_in; [symmetry; apply processArticles_perm | exact H].
Qed.

(** X21.  Every article of the processed collection is AI-related, carries
    the category the classifier assigns to its title and description, one
    of the six real ones, is not flagged as a favorite, and is left as it
    is by the classifier. *)
Theorem processed_articles_classified (now : nat -> Z)
    (raws : list RawArticle) (a : Article) :
  In a (processArticles now raws) ->
  isAIRelated a = true /\
  category a = assigned_category (content_of a) /\
  In (category a) real_category_ids /\
  isFavorite a = false /\
  categorizeArticle a = Some a.
Proof.
  intros Ha. apply processArticles_In in Ha as [d [Hd Hc]].
  pose proof Hc as Hc'. apply categorizeArticle_some in Hc' as [Hrel ->].
  assert (Hrel' : isAIRelated (with_category d (assigned_category (content_of d)))
                  = true) by exact Hrel.
  split; [exact Hrel'|]. split; [reflexivity|].
  split; [apply assigned_category_real|]. split.
  - rewrite dedupe_first_occurrences in Hd.
    apply first_occurrences_incl in Hd.
    apply normalizeAll_In in Hd as [t [r [_ ->]]]. reflexivity.
  - rewrite (categorizeArticle_relevant _ Hrel'). reflexivity.
Qed.

Lemma loadFeeds_fresh (clk : Clock) (w : SetItem) (results : list FetchResult)
    (st : LocalStorage) :
  cache_miss (now_cache_read clk) st -> collect results <> [] ->
  loadFeeds clk w results st =
  (processArticles (now_normalize clk) (collect results),
   snd (cacheArticles w (now_timestamp clk) (now_expires clk)
          (processArticles (now_normalize clk) (collect results))
          (snd (getCachedArticles (now_cache_read clk) st)))).
Proof.
  intros Hmiss Hraws. unfold loadFeeds, cache_miss in *.
  destruct (getCachedArticles (now_cache_read clk) st) as [cached st1].
  cbn [fst snd] in *.
  destruct (collect results) as [|r rs] eqn:Hc; [congruence|].
  destruct Hmiss as [-> | ->];
    destruct (cacheArticles w _ _ _ st1); reflexivity.
Qed.

(** X22.  [loadFeeds] returns an empty collection in one situation only:
    the cache gives nothing, some source delivered an item, and not one of
    the deduplicated items is AI-related. *)
Theorem loadFeeds_empty (clk : Clock) (w : SetItem)
    (results : list FetchResult) (st : LocalStorage) :
  fst (loadFeeds clk w results st) = [] <->
  cache_miss (now_cache_read clk) st /\
  collect results <> [] /\
  forall d,
    In d (dedupe (normalizeAll (now_normalize clk) (collect results))) ->
    isAIRelated d = false.
Proof.
  assert (Hproc : forall raws,
            processArticles (now_normalize clk) raws = [] <->
            forall d, In d (dedupe (normalizeAll (now_normalize clk) raws)) ->
                      isAIRelated d = false).
  { intros raws. split.
    - intros H d Hd. destruct (isAIRelated d) eqn:E; [|reflexivity].
      assert (Hin : In (with_category d (assigned_category (content_of d)))
                       (processArticles (now_normalize clk) raws)).
      { apply processArticles_In. exists d. split; [exact Hd|].
        now apply categorizeArticle_relevant. }
      rewrite H in Hin. destruct Hin.
    - intros H. apply Permutation_nil. symmetry.
      eapply Permutation_trans; [apply processArticles_perm|].
      replace (filter_non_null _) with (@nil Article); [reflexivity|].
      symmetry. apply filter_non_null_nil. intros d Hd.
      apply categorizeArticle_irrelevant. now apply H. }
  destruct (collect results) as [|r rs] eqn:Hc.
  - split.
    + unfold loadFeeds. rewrite Hc.
      destruct (getCachedArticles (now_cache_read clk) st) as [[[|a l]|] st1];
        cbn; discriminate.
    + intros [_ [H _]]. congruence.
  - split.
    + intros H. unfold loadFeeds, cache_miss in *. rewrite Hc in H.
      destruct (getCachedArticles (now_cache_read clk) st) as [cached st1].
      cbn [fst snd] in *.
      destruct cached as [[|a l]|].
      * split; [now right|]. split; [discriminate|]. apply Hproc.
        destruct (cacheArticles w _ _ _ st1). exact H.
      * discriminate.
      * split; [now left|]. split; [discriminate|]. apply Hproc.
        destruct (cacheArticles w _ _ _ st1). exact H.
    + intros [Hmiss [Hraws Hall]].
      assert (Hraws' : collect results <> []) by (rewrite Hc; discriminate).
      rewrite (@loadFeeds_fresh clk w results st Hmiss Hraws'). cbn [fst].
      rewrite Hc. now apply Hproc.
Qed.

(** X23.  After a run that fetched, processed a collection that is not
    empty and wrote it to the cache, any run within the hour returns the
    same collection and leaves the store as it is, whatever the sources
    deliver then. *)
Theorem loadFeeds_served_from_cache (clk clk' : Clock) (w' : SetItem)
    (results results' : list FetchResult) (st : LocalStorage) :
  cache_miss (now_cache_read clk) st ->
  collect results <> [] ->
  fst (loadFeeds clk SetOk results st) <> [] ->
  now_cache_read clk' < now_expires clk + 3600000 ->
  loadFeeds clk' w' results' (snd (loadFeeds clk SetOk results st))
  = loadFeeds clk SetOk results st.
Proof.
  intros Hmiss Hraws Hne Hnow.
  rewrite (@loadFeeds_fresh clk SetOk results st Hmiss Hraws) in *.
  cbn [fst snd] in *.
  set (out := processArticles (now_normalize clk) (collect results)) in *.
  set (st0 := snd (getCachedArticles (now_cache_read clk) st)).
  unfold loadFeeds at 1. unfold getCachedArticles. cbn.
  unfold CACHE_DURATION. Zltb_true.
  destruct out as [|a l]; [congruence|]. reflexivity.
Qed.

(** X13.  A write of the cache that fails for lack of quota removes the
    entry that was there, so that no later read finds one; a write that
    fails otherwise leaves the store as it was; both report [false].  A
    run of [loadFeeds] whose write fails still returns the processed
    collection, and after a quota failure the next run misses the cache. *)
Theorem cacheArticles_failure (t1 t2 : Z) (arts : list Article)
    (st : LocalStorage) :
  fst (cacheArticles QuotaExceededError t1 t2 arts st) = false /\
  (forall now,
     getCachedArticles now (snd (cacheArticles QuotaExceededError t1 t2 arts st))
     = (None, snd (cacheArticles QuotaExceededError t1 t2 arts st))) /\
  cacheArticles OtherError t1 t2 arts st = (false, st) /\
  (forall clk w results,
     cache_miss (now_cache_read clk) st -> collect results <> [] ->
     fst (loadFeeds clk w results st)
     = processArticles (now_normalize clk) (collect results) /\
     forall now',
       cache_miss now' (snd (loadFeeds clk QuotaExceededError results st))).
Proof.
  split; [reflexivity|]. split; [reflexivity|]. split; [reflexivity|].
  intros clk w results Hmiss Hraws.
  rewrite (@loadFeeds_fresh clk w results st Hmiss Hraws).
  split; [reflexivity|]. intros now'.
  rewrite (@loadFeeds_fresh clk QuotaExceededError results st Hmiss Hraws).
  left. reflexivity.
Qed.

End PipelineMore.

Lemma processed_articles_classified_witness :
  exists a,
    In a (@processArticles Reference.platform (fun _ => Examples.T)
            [Examples.raw_dated]) /\
    category a = lit "ai-design-tools".
Proof.
  eexists. split; [left; reflexivity|].
  destruct (@processed_articles_classified Reference.platform
              (fun _ => Examples.T) [Examples.raw_dated] _
              (or_introl eq_refl)) as [_ [-> _]].
  vm_compute. reflexivity.
Defined.

Lemma loadFeeds_empty_witness :
  fst (@loadFeeds Reference.platform Examples.clock SetOk
         [Some [Examples.raw_cooking]; None] empty_storage) = [].
Proof.
  apply (@loadFeeds_empty Reference.platform Examples.clock SetOk
           [Some [Examples.raw_cooking]; None] empty_storage).
  split; [left; reflexivity|]. split; [discriminate|].
  intros d Hd.
  assert (Hds : @dedupe
                  (@normalizeAll Reference.platform
                     (now_normalize Examples.clock)
                     (collect [Some [Examples.raw_cooking]; None]))
                = [@normalizeArticle Reference.platform Examples.T
                     Examples.raw_cooking])
    by (vm_compute; reflexivity).
  rewrite Hds in Hd. destruct Hd as [<- | []]. vm_compute. reflexivity.
Defined.

Lemma loadFeeds_served_from_cache_witness :
  let r := @loadFeeds Reference.platform Examples.clock SetOk
             [Some [Examples.raw_dated]] empty_storage in
  @loadFeeds Reference.platform Examples.clock OtherError [None] (snd r) = r.
Proof.
  cbn zeta.
  apply (@loadFeeds_served_from_cache Reference.platform).
  - left. reflexivity.
  - discriminate.
  - vm_compute. discriminate.
  - vm_compute. reflexivity.
Defined.

Lemma cacheArticles_failure_witness :
  let r := @loadFeeds Reference.platform Examples.clock QuotaExceededError
             [Some [Examples.raw_dated]] empty_storage in
  List.map title (fst r) = [lit "Midjourney for interiors"] /\
  cache_miss 0 (snd r).
Proof.
  cbn zeta.
  destruct (@cacheArticles_failure Reference.platform 0 0 [] empty_storage)
    as [_ [_ [_ Hrun]]].
  destruct (Hrun Examples.clock QuotaExceededError [Some [Examples.raw_dated]])
    as [Hout Hmiss]; [left; reflexivity | discriminate|].
  split; [rewrite Hout; vm_compute; reflexivity | apply Hmiss].
Defined.

(* ================================================================= *)
(** ** The favorite flags of the application *)

Section AppStateFacts.
Context {P : Platform}.

Lemma markFavorites_in_sync (arts : list Article) (st : LocalStorage) :
  in_sync (markFavorites arts st) st.
Proof.
  intros a Ha. unfold markFavorites in Ha.
  apply in_map_iff in Ha as [a0 [<- _]]. reflexivity.
Qed.

Lemma set_first_ids (x : jsstring) (b : bool) (arts : list Article) :
  List.map id (set_first x b arts) = List.map id arts.
Proof.
  induction arts as [|a arts IH]; [reflexivity|]. simpl.
  destruct (str_eqb (id a) x); simpl; [reflexivity | now rewrite IH].
Qed.

(** With distinct ids, the article that is set is the only one with the
    id. *)
Lemma set_first_In (x : jsstring) (b : bool) (arts : list Article)
    (a' : Article) :
  NoDup (List.map id arts) ->
  In a' (set_first x b arts) ->
  (id a' = x /\ isFavorite a' = b) \/ (id a' <> x /\ In a' arts).
Proof.
  induction arts as [|a arts IH]; simpl; intros Hnd Hin; [tauto|].
  inversion Hnd as [|y ys Hnotin Hnd']; subst.
  destruct (str_eqb (id a) x) eqn:E.
  - apply str_eqb_eq in E. destruct Hin as [<- | Hin].
    + left. split; [exact E | reflexivity].
    + right. split; [|now right]. intros Hx. apply Hnotin.
      rewrite E, <- Hx. now apply in_map.
  - apply str_eqb_neq in E. destruct Hin as [<- | Hin].
    + right. split; [exact E | now left].
    + destruct (IH Hnd' Hin) as [H | [H1 H2]]; [now left|].
      right. split; [exact H1 | now right].
Qed.

Lemma find_id_some (x : jsstring) (arts : list Article) (article : Article) :
  List.find (fun a => str_eqb (id a) x) arts = Some article ->
  In article arts /\ id article = x.
Proof.
  intros H. apply find_some in H as [Hin Hx]. apply str_eqb_eq in Hx. tauto.
Qed.

(** X24.  The star of every article says whether its id is stored: the
    marking of [initApp] makes it so, and a toggle keeps it so, whether its
    write succeeds or fails, as long as no two articles share an id.  A
    toggle changes no id and no other field than the flag. *)
Theorem favorite_flags_in_sync :
  (forall arts st,
     in_sync (markFavorites arts st) st /\
     unflagged (markFavorites arts st) = unflagged arts) /\
  (forall w now x arts st,
     NoDup (List.map id arts) -> in_sync arts st ->
     in_sync (fst (toggleFavorite w now x arts st))
             (snd (toggleFavorite w now x arts st))) /\
  (forall w now x arts st,
     unflagged (fst (toggleFavorite w now x arts st)) = unflagged arts).
Proof.
  split; [|split].
  - intros arts st. split; [apply markFavorites_in_sync|].
    unfold unflagged, markFavorites. rewrite map_map. reflexivity.
  - intros w now x arts st Hnd Hsync. unfold toggleFavorite.
    destruct (List.find _ arts) as [article|] eqn:Hf; [|exact Hsync].
    apply find_id_some in Hf as [Hin Hx].
    pose proof (Hsync article Hin) as Hflag. rewrite Hx in Hflag.
    assert (Hw : w = SetOk \/ w <> SetOk)
      by (destruct w; [now left | right; discriminate..]).
    destruct (isFavorite article) eqn:Hfav.
    + destruct Hw as [-> | Hw].
      * cbn [removeFavorite fst snd].
        change (set_favorites st _) with (snd (removeFavorite SetOk x st)).
        intros a' Ha'.
        destruct (@set_first_In x false arts a' Hnd Ha')
          as [[Hid ->] | [Hid Hold]].
        -- rewrite Hid. symmetry. apply isFavoriteId_removed.
        -- rewrite (@isFavoriteId_remove_other SetOk x (id a') st Hid).
           now apply Hsync.
      * rewrite (removeFavorite_failed x st Hw). exact Hsync.
    + destruct Hw as [-> | Hw].
      * pose proof (saveFavorite_reports now x st) as Hrep.
        rewrite <- Hflag in Hrep. cbn [negb] in Hrep.
        destruct (saveFavorite SetOk now x st) as [saved st'] eqn:Hs.
        cbn [fst] in Hrep. subst saved. cbn [fst snd].
        assert (Hst' : st' = snd (saveFavorite SetOk now x st))
          by now rewrite Hs.
        intros a' Ha'.
        destruct (@set_first_In x true arts a' Hnd Ha')
          as [[Hid ->] | [Hid Hold]].
        -- rewrite Hid, Hst'. symmetry. apply isFavoriteId_saved.
        -- rewrite Hst', (@isFavoriteId_save_other P SetOk now x (id a') st Hid).
           now apply Hsync.
      * rewrite (saveFavorite_failed now x st Hw). exact Hsync.
  - intros w now x arts st. unfold toggleFavorite.
    assert (Hset : forall b, unflagged (set_first x b arts) = unflagged arts).
    { intros b. unfold unflagged. induction arts as [|a l IH]; [reflexivity|].
      simpl. destruct (str_eqb (id a) x); simpl; [reflexivity|].
      now rewrite IH. }
    destruct (List.find _ arts) as [article|]; [|reflexivity].
    destruct (isFavorite article).
    + destruct (removeFavorite w x st) as [[|] st']; cbn [fst]; auto.
    + destruct (saveFavorite w now x st) as [[|] st']; cbn [fst]; auto.
Qed.

Lemma set_first_found (x : jsstring) (arts : list Article) (article : Article) :
  List.find (fun a => str_eqb (id a) x) arts = Some article ->
  set_first x (isFavorite article) arts = arts /\
  (forall b b', set_first x b' (set_first x b arts) = set_first x b' arts) /\
  (forall b, List.find (fun a => str_eqb (id a) x) (set_first x b arts)
             = Some (set_isFavorite article b)).
Proof.
  induction arts as [|a arts IH]; simpl; [discriminate|].
  destruct (str_eqb (id a) x) eqn:E.
  - intros [= <-]. split; [|split].
    + now destruct a.
    + intros b b'. simpl. now rewrite E.
    + intros b. simpl. now rewrite E.
  - intros H. destruct (IH H) as [H1 [H2 H3]]. split; [|split].
    + now rewrite H1.
    + intros b b'. simpl. rewrite E. now rewrite H2.
    + intros b. simpl. rewrite E. apply H3.
Qed.

(** X25.  Toggling the favorite of an article twice, both writes
    succeeding, brings every flag back and leaves stored exactly the ids
    that were stored (the flags being in sync before). *)
Theorem toggleFavorite_twice (t1 t2 : Z) (x : jsstring)
    (arts : list Article) (st : LocalStorage) :
  in_sync arts st ->
  let r1 := toggleFavorite SetOk t1 x arts st in
  let r2 := toggleFavorite SetOk t2 x (fst r1) (snd r1) in
  fst r2 = arts /\
  forall y, isFavoriteId y (snd r2) = isFavoriteId y st.
Proof.
  intros Hsync. cbn zeta.
  destruct (List.find (fun a => str_eqb (id a) x) arts) as [article|] eqn:Hf.
  2:{ unfold toggleFavorite. rewrite Hf. cbn [fst snd]. rewrite Hf.
      split; reflexivity. }
  destruct (@set_first_found x arts article Hf) as [Hsame [Htwice Hfind]].
  pose proof (@find_id_some x arts article Hf) as [Hin Hx].
  pose proof (Hsync article Hin) as Hflag. rewrite Hx in Hflag.
  destruct (isFavorite article) eqn:Hfav.
  - (* favorite: removed, then saved again *)
    assert (H1 : toggleFavorite SetOk t1 x arts st
                 = (set_first x false arts, snd (removeFavorite SetOk x st))).
    { unfold toggleFavorite. rewrite Hf, Hfav. reflexivity. }
    rewrite H1. cbn [fst snd].
    set (s1 := snd (removeFavorite SetOk x st)).
    pose proof (saveFavorite_reports t2 x s1) as Hrep.
    unfold s1 in Hrep at 2. rewrite isFavoriteId_removed in Hrep.
    cbn [negb] in Hrep.
    assert (H2 : toggleFavorite SetOk t2 x (set_first x false arts) s1
                 = (set_first x true (set_first x false arts),
                    snd (saveFavorite SetOk t2 x s1))).
    { unfold toggleFavorite. rewrite Hfind. cbn [isFavorite set_isFavorite].
      destruct (saveFavorite SetOk t2 x s1) as [saved st'].
      cbn [fst] in Hrep. subst saved. reflexivity. }
    rewrite H2. cbn [fst snd]. split.
    + rewrite Htwice. exact Hsame.
    + intros y. destruct (str_eqb y x) eqn:E.
      * apply str_eqb_eq in E. subst y. rewrite isFavoriteId_saved.
        exact Hflag.
      * apply str_eqb_neq in E.
        rewrite (@isFavoriteId_save_other P SetOk t2 x y s1 E). unfold s1.
        now apply isFavoriteId_remove_other.
  - (* not a favorite: saved, then removed again *)
    pose proof (saveFavorite_reports t1 x st) as Hrep.
    rewrite <- Hflag in Hrep. cbn [negb] in Hrep.
    assert (H1 : toggleFavorite SetOk t1 x arts st
                 = (set_first x true arts, snd (saveFavorite SetOk t1 x st))).
    { unfold toggleFavorite. rewrite Hf, Hfav.
      destruct (saveFavorite SetOk t1 x st) as [saved st'].
      cbn [fst] in Hrep. subst saved. reflexivity. }
    rewrite H1. cbn [fst snd].
    set (s1 := snd (saveFavorite SetOk t1 x st)).
    assert (H2 : toggleFavorite SetOk t2 x (set_first x true arts) s1
                 = (set_first x false (set_first x true arts),
                    snd (removeFavorite SetOk x s1))).
    { unfold toggleFavorite. rewrite Hfind. reflexivity. }
    rewrite H2. cbn [fst snd]. split.
    + rewrite Htwice. exact Hsame.
    + intros y. destruct (str_eqb y x) eqn:E.
      * apply str_eqb_eq in E. subst y. rewrite isFavoriteId_removed.
        exact Hflag.
      * apply str_eqb_neq in E.
        rewrite (@isFavoriteId_remove_other SetOk x y s1 E). unfold s1.
        now apply isFavoriteId_save_other.
Qed.

End AppStateFacts.

Lemma favorite_flags_in_sync_witness :
  let r := @toggleFavorite Reference.platform SetOk 0 (lit "a")
             MoreExamples.library empty_storage in
  in_sync (fst r) (snd r) /\
  List.map isFavorite (fst r) = [true; false].
Proof.
  cbn zeta. split; [|reflexivity].
  apply (proj1 (proj2 (@favorite_flags_in_sync Reference.platform))).
  - vm_compute. repeat constructor; simpl; intuition discriminate.
  - intros a Ha. vm_compute in Ha.
    destruct Ha as [<- | [<- | []]]; reflexivity.
Defined.

Lemma toggleFavorite_twice_witness :
  let r1 := @toggleFavorite Reference.platform SetOk 0 (lit "a")
              MoreExamples.library empty_storage in
  fst (@toggleFavorite Reference.platform SetOk 1 (lit "a") (fst r1) (snd r1))
  = MoreExamples.library.
Proof.
  cbn zeta.
  apply (@toggleFavorite_twice Reference.platform 0 1 (lit "a")
           MoreExamples.library empty_storage).
  intros a Ha. vm_compute in Ha.
  destruct Ha as [<- | [<- | []]]; reflexivity.
Defined.

(** With two articles under one id the flags fall out of sync: the second
    stays unflagged although its id is stored. *)
Example shared_id_out_of_sync :
  let arts := [MoreExamples.flagged "a" "One" false;
               MoreExamples.flagged "a" "Two" false] in
  let r := @toggleFavorite Reference.platform SetOk 0 (lit "a") arts
             empty_storage in
  List.map isFavorite (fst r) = [true; false] /\
  isFavoriteId (lit "a") (snd r) = true.
Proof. split; reflexivity. Qed.
